(** * travling-server: session guard and owner-scoped wishlist store

    The repository holds successive revisions of one Express/MongoDB
    server.  This development embeds the latest one (the revision with the
    environment checks, the bearer-header fallback, the upsert on [/users]
    and the owner-scoped wishlist routes) as pure functions over an explicit
    database state, and proves the properties of its session guard
    ([verifyJWT]) and of its user and wishlist handlers.  The revision
    before it ([index.js]) is embedded in [Module Previous], to state where
    the two differ.

    Modelling conventions
    - a JavaScript object used as a record (request body, decoded token,
      stored document) is a [gmap string value]; a missing key is
      [undefined];
    - field values are scalars (strings, numbers, booleans, null, and the
      identifiers and dates the server creates); JSON numbers are taken to
      be integers.  Nested objects and arrays are outside the model, so the
      properties speak of bodies and stored documents with scalar fields:
      an [id] or [hotelId] that is an object (a MongoDB operator
      expression, say) is not covered;
    - a collection is the list of its documents in natural (insertion)
      order; [insertOne] appends;
    - the MongoDB driver, [jsonwebtoken] and [String.prototype.toLowerCase]
      are not part of the repository: the driver operations the handlers
      call are modelled below on scalar field values ([ObjectId] strings as
      the current driver reads them), the other two are fields of the
      environment class [Env]; [String.prototype.trim] is an argument of
      the cross-origin configuration;
    - a request is what the handlers see: [req.body] and [req.cookies] as
      [express.json()] and [cookieParser()] left them, and [req.headers];
    - [new Date()] is the [now] argument of a handler;
    - a [try { ... } catch] around a handler turns a thrown error into the
      500 response of its catch block; an error outside one (the cors
      callback's, a throw in a handler of the previous revision) is left to
      Express and is an outcome of its own. *)

From Stdlib Require Import ZArith NArith Ascii String.
From stdpp Require Import base option list gmap strings.

Open Scope string_scope.
Open Scope list_scope.

(** ** Values and documents *)

(** Field values: the JSON scalars a body can carry, plus the two BSON
    scalars the server itself creates ([ObjectId], [Date]). *)
Inductive value :=
| VNull
| VBool (b : bool)
| VNum (n : Z)
| VStr (s : string)
| VOid (o : N)
| VDate (t : Z).

#[global] Instance value_eq_dec : EqDecision value.
Proof. solve_decision. Defined.

Abbreviation doc := (gmap string value).

(** JavaScript truthiness of a defined value. *)
Definition truthy (v : value) : bool :=
  match v with
  | VNull => false
  | VBool b => b
  | VNum n => negb (n =? 0)%Z
  | VStr s => negb (bool_decide (s = ""))
  | VOid _ => true
  | VDate _ => true
  end.

(** Truthiness of a property read [o.k] ([undefined] is falsy). *)
Definition truthy_opt (o : option value) : bool :=
  match o with
  | Some v => truthy v
  | None => false
  end.

(** ** The MongoDB operations used by the handlers *)

(** A filter such as [{ id: x, email: y }]: a conjunction of equality
    conditions.  A [null] condition matches a null or a missing field. *)
Abbreviation query := (list (string * value)).

Definition match_field (d : doc) (kv : string * value) : bool :=
  match kv.2 with
  | VNull => bool_decide (d !! kv.1 = None ∨ d !! kv.1 = Some VNull)
  | v => bool_decide (d !! kv.1 = Some v)
  end.

Definition matches (q : query) (d : doc) : bool :=
  forallb (match_field d) q.

(** [collection.find(q).toArray()] *)
Definition find (q : query) (c : list doc) : list doc :=
  List.filter (matches q) c.

(** [collection.findOne(q)] *)
Definition findOne (q : query) (c : list doc) : option doc :=
  List.find (matches q) c.

(** [collection.deleteOne(q)]: removes the first matching document;
    returns [deletedCount] and the remaining documents. *)
Fixpoint deleteOne (q : query) (c : list doc) : nat * list doc :=
  match c with
  | [] => (0, [])
  | d :: c' =>
      if matches q d then (1, c')
      else let '(n, r) := deleteOne q c' in (n, d :: r)
  end.

(** The database: the two collections of [Travling-Hotel] and the source
    of fresh [ObjectId]s of the driver. *)
Record db := Db {
  favoriteCollection : list doc;
  usersCollection : list doc;
  next_pk : N
}.

Definition has_id (v : value) (d : doc) : bool :=
  bool_decide (d !! "_id" = Some v).

(** The primary key of a document to insert: the driver creates an
    [ObjectId] when the document has no [_id] (or a null one), and keeps
    the one it carries otherwise. *)
Definition assign_pk (d : doc) (pk : N) : value * doc * N :=
  match d !! "_id" with
  | None | Some VNull => (VOid pk, <["_id" := VOid pk]> d, (pk + 1)%N)
  | Some v => (v, d, pk)
  end.

(** [collection.insertOne(d)]: [None] is the duplicate-key error of the
    unique index on [_id]; otherwise the [insertedId], the collection with
    the document appended, and the advanced key source. *)
Definition insertOne (d : doc) (c : list doc) (pk : N)
  : option (value * list doc * N) :=
  let '(id, d', pk') := assign_pk d pk in
  if existsb (has_id id) c then None
  else Some (id, c ++ [d'], pk').

(** The [$set] part of an update applied to a matched document: the fields
    of [setd] overwrite, every other field of the document stays.  Changing
    the immutable [_id] is a write error ([None]). *)
Definition apply_set (setd d : doc) : option doc :=
  match setd !! "_id" with
  | Some v => if bool_decide (d !! "_id" = Some v) then Some (setd ∪ d) else None
  | None => Some (setd ∪ d)
  end.

(** The first document matching [q] is updated in place.  Outer [None]: no
    document matches; inner [None]: the write was refused. *)
Fixpoint update_first (q : query) (setd : doc) (c : list doc)
  : option (option (list doc)) :=
  match c with
  | [] => None
  | d :: c' =>
      if matches q d then
        match apply_set setd d with
        | Some d' => Some (Some (d' :: c'))
        | None => Some None
        end
      else
        match update_first q setd c' with
        | Some (Some r) => Some (Some (d :: r))
        | Some None => Some None
        | None => None
        end
  end.

Inductive update_result :=
| WriteError
| Modified (c : list doc)
| Upserted (upsertedId : value) (c : list doc) (pk : N).

(** [collection.updateOne(q, { $set: setd, $setOnInsert: soi },
    { upsert: true })].  When nothing matches, the document built from the
    equality fields of the filter, [$set] and [$setOnInsert] is inserted. *)
Definition updateOne_upsert (q : query) (setd soi : doc) (c : list doc) (pk : N)
  : update_result :=
  match update_first q setd c with
  | Some (Some c') => Modified c'
  | Some None => WriteError
  | None =>
      let d := soi ∪ (setd ∪ list_to_map q) in
      match d !! "_id" with
      | Some v =>
          if existsb (has_id v) c then WriteError else Upserted v (c ++ [d]) pk
      | None =>
          if existsb (has_id (VOid pk)) c then WriteError
          else Upserted (VOid pk) (c ++ [<["_id" := VOid pk]> d]) (pk + 1)%N
      end
  end.

(** ** ObjectId strings *)

Definition hex_value (c : ascii) : option N :=
  let n := N_of_ascii c in
  if ((48 <=? n) && (n <=? 57))%N then Some (n - 48)%N
  else if ((97 <=? n) && (n <=? 102))%N then Some (n - 87)%N
  else if ((65 <=? n) && (n <=? 70))%N then Some (n - 55)%N
  else None.

Definition is_hex (c : ascii) : bool :=
  let n := N_of_ascii c in
  ((48 <=? n) && (n <=? 57) || (97 <=? n) && (n <=? 102)
   || (65 <=? n) && (n <=? 70))%N.

(** [ObjectId.isValid(id)] on a string: 24 hexadecimal characters. *)
Definition ObjectId_isValid (id : string) : bool :=
  (String.length id =? 24)%nat && forallb is_hex (list_ascii_of_string id).

Fixpoint hex_decode (acc : N) (s : string) : option N :=
  match s with
  | EmptyString => Some acc
  | String c s' =>
      match hex_value c with
      | Some v => hex_decode (16 * acc + v)%N s'
      | None => None
      end
  end.

(** [new ObjectId(id)] on a string: the 12 bytes the 24 hexadecimal
    characters denote; [None] is the error the constructor throws on any
    other string. *)
Definition ObjectId_new (id : string) : option N :=
  if (String.length id =? 24)%nat then hex_decode 0 id else None.

(** ** Requests and responses *)

Record request := Request {
  cookies : gmap string string;
  headers : gmap string string;
  params : gmap string string;
  url_query : gmap string string;
  body : option doc;
  user : option doc
}.

(** [req.user = decoded] *)
Definition set_user (req : request) (decoded : doc) : request :=
  {| cookies := cookies req; headers := headers req; params := params req;
     url_query := url_query req; body := body req; user := Some decoded |}.

Record cookie_options := CookieOptions {
  httpOnly : bool;
  secure : bool;
  sameSite : string
}.

Inductive cookie_effect :=
| NoCookie
| SetCookie (name token : string) (opts : cookie_options)
| ClearCookie (name : string) (opts : cookie_options).

(** The JSON documents the handlers answer with; the last two are the
    driver results the previous revision sends as they are. *)
Inductive reply :=
| Text (s : string)
| Message (message : string)
| Success
| SuccessMessage (message : string)
| InsertedId (insertedId : value)
| UpsertedId (upsertedId : value)
| DeletedCount (deletedCount : nat)
| Items (items : list doc)
| InsertOneResult (insertedId : value)
| DeleteResult (deletedCount : nat).

Record response := Response {
  status : nat;
  json : reply;
  cookie : cookie_effect
}.

Definition respond (code : nat) (r : reply) : response :=
  {| status := code; json := r; cookie := NoCookie |}.

(** [s.split(sep)] for a one-character separator. *)
Fixpoint split (sep : ascii) (s : string) : list string :=
  match s with
  | EmptyString => [EmptyString]
  | String c s' =>
      if Ascii.eqb c sep then EmptyString :: split sep s'
      else match split sep s' with
           | piece :: rest => String c piece :: rest
           | [] => [String c EmptyString]
           end
  end.

(** The errors of [jwt.verify]. *)
Inductive jwt_error :=
| TokenExpiredError
| JsonWebTokenError (reason : string)
| NotBeforeError.

(** A property read used as a query or payload value: the driver sends an
    [undefined] value as [null]. *)
Definition get (d : doc) (k : string) : value := default VNull (d !! k).

Definition with_favorite (st : db) (c : list doc) (pk : N) : db :=
  {| favoriteCollection := c; usersCollection := usersCollection st;
     next_pk := pk |}.

Definition with_users (st : db) (c : list doc) (pk : N) : db :=
  {| favoriteCollection := favoriteCollection st; usersCollection := c;
     next_pk := pk |}.

(** ** The server *)

(** What the server takes from its environment and its libraries. *)
Class Env := {
  (** [process.env.NODE_ENV || 'development'] *)
  NODE_ENV : string;
  (** [jwt.sign(payload, JWT_SECRET, { expiresIn })] at a given time *)
  jwt_sign : doc → string → Z → string;
  (** [jwt.verify(token, JWT_SECRET, callback)] at a given time: the [err]
      or the [decoded] payload handed to the callback *)
  jwt_verify : string → Z → jwt_error + doc;
  (** [String.prototype.toLowerCase] *)
  toLowerCase : string → string
}.

Section Server.

Context {env : Env}.

Definition cookieOptions : cookie_options :=
  let isProd := bool_decide (NODE_ENV = "production") in
  {| httpOnly := true;
     secure := isProd;
     sameSite := if isProd then "None" else "Lax" |}.

(** [req.headers.authorization?.startsWith('Bearer ')
      ? req.headers.authorization.split(' ')[1] : null] *)
Definition bearer_token (req : request) : option string :=
  match headers req !! "authorization" with
  | Some a => if String.prefix "Bearer " a then split " " a !! 1%nat else None
  | None => None
  end.

(** [req.cookies?.token || (bearer value)]: an undefined or empty cookie is
    falsy and gives way to the header. *)
Definition extract_token (req : request) : option string :=
  match cookies req !! "token" with
  | Some t => if bool_decide (t = "") then bearer_token req else Some t
  | None => bearer_token req
  end.

Definition unauthorized : response :=
  respond 401 (Message "Unauthorized: No token provided").

Definition forbidden_token : response :=
  respond 403 (Message "Forbidden: Invalid or expired token").

(** The middleware: a response when the request is turned away, the request
    with [req.user] set when [next()] is called. *)
Definition verifyJWT (now : Z) (req : request) : response + request :=
  match extract_token req with
  | None => inl unauthorized
  | Some token =>
      if bool_decide (token = "") then inl unauthorized
      else match jwt_verify token now with
           | inl _ => inl forbidden_token
           | inr decoded => inr (set_user req decoded)
           end
  end.

(** [req.user?.email] *)
Definition user_email (req : request) : option value :=
  user req ≫= (λ u, u !! "email").

Definition forbidden_email : response :=
  respond 403 (Message "Forbidden: user email missing in token").

(** [POST /users] *)
Definition post_users (now : Z) (req : request) (st : db) : response * db :=
  match body req ≫= (λ u, u !! "email") with
  | Some (VStr e) =>
      if bool_decide (e = "") then
        (respond 400 (Message "Email is required"), st)
      else
        let profile := default ∅ (body req) in
        let email := toLowerCase e in
        let filter := [("email", VStr email)] in
        let restUser := delete "createdAt" profile in
        let set_ := <["updatedAt" := VDate now]> (<["email" := VStr email]> restUser) in
        let setOnInsert := {["createdAt" := VDate now]} in
        let token := jwt_sign {["email" := VStr email]} "365d" now in
        match updateOne_upsert filter set_ setOnInsert (usersCollection st) (next_pk st) with
        | WriteError =>
            (respond 500 (Message "Server error creating/updating user"), st)
        | Modified c =>
            ({| status := 200; json := UpsertedId VNull;
                cookie := SetCookie "token" token cookieOptions |},
             with_users st c (next_pk st))
        | Upserted id c pk =>
            (* [result.upsertedId || null] *)
            ({| status := 200;
                json := UpsertedId (if truthy id then id else VNull);
                cookie := SetCookie "token" token cookieOptions |},
             with_users st c pk)
        end
  | Some v =>
      if truthy v then
        (* [user.email.toLowerCase] is not a function: caught *)
        (respond 500 (Message "Server error creating/updating user"), st)
      else (respond 400 (Message "Email is required"), st)
  | None => (respond 400 (Message "Email is required"), st)
  end.

(** [POST /jwt] *)
Definition post_jwt (now : Z) (req : request) (st : db) : response * db :=
  match body req with
  | None =>
      (* destructuring [undefined] throws: caught *)
      (respond 500 (Message "Could not create token"), st)
  | Some b =>
      match b !! "email" with
      | Some (VStr e) =>
          if bool_decide (e = "") then
            (respond 400 (Message "Email required"), st)
          else
            match findOne [("email", VStr (toLowerCase e))] (usersCollection st) with
            | None => (respond 404 (Message "User not found"), st)
            | Some u =>
                let token := jwt_sign {["email" := get u "email"]} "200h" now in
                ({| status := 200; json := Success;
                    cookie := SetCookie "token" token cookieOptions |}, st)
            end
      | Some v =>
          if truthy v then (respond 500 (Message "Could not create token"), st)
          else (respond 400 (Message "Email required"), st)
      | None => (respond 400 (Message "Email required"), st)
      end
  end.

(** [POST /logout] *)
Definition post_logout (now : Z) (req : request) (st : db) : response * db :=
  ({| status := 200; json := SuccessMessage "Logged out successfully";
      cookie := ClearCookie "token" cookieOptions |}, st).

(** [POST /wishlist] (behind [verifyJWT]) *)
Definition post_wishlist (now : Z) (req : request) (st : db) : response * db :=
  match body req with
  | None => (respond 400 (Message "Invalid wishlist data: missing id"), st)
  | Some item =>
      if negb (truthy_opt (item !! "id")) then
        (respond 400 (Message "Invalid wishlist data: missing id"), st)
      else if negb (truthy_opt (user_email req)) then (forbidden_email, st)
      else
        let userEmail := default VNull (user_email req) in
        let item := <["email" := userEmail]> item in
        match findOne [("id", get item "id"); ("email", userEmail)]
                (favoriteCollection st) with
        | Some _ => (respond 409 (Message "Item already added to wishlist"), st)
        | None =>
            match insertOne (<["createdAt" := VDate now]> item)
                    (favoriteCollection st) (next_pk st) with
            | Some (id, c, pk) =>
                (respond 201 (InsertedId id), with_favorite st c pk)
            | None =>
                (respond 500 (Message "Server error adding to wishlist"), st)
            end
        end
  end.

(** [POST /wishlist-recommend] (behind [verifyJWT]) *)
Definition post_wishlist_recommend (now : Z) (req : request) (st : db)
  : response * db :=
  match body req with
  | None => (respond 400 (Message "Invalid data"), st)
  | Some item =>
      if negb (truthy_opt (item !! "hotelId")) || negb (truthy_opt (item !! "name"))
      then (respond 400 (Message "Invalid data"), st)
      else if negb (truthy_opt (user_email req)) then (forbidden_email, st)
      else
        let userEmail := default VNull (user_email req) in
        let item := <["email" := userEmail]> item in
        match findOne [("hotelId", get item "hotelId"); ("email", userEmail)]
                (favoriteCollection st) with
        | Some _ => (respond 200 (Message "Already in wishlist"), st)
        | None =>
            match insertOne (<["createdAt" := VDate now]> item)
                    (favoriteCollection st) (next_pk st) with
            | Some (id, c, pk) =>
                (respond 201 (InsertedId id), with_favorite st c pk)
            | None => (respond 500 (Message "Server error"), st)
            end
        end
  end.

(** [GET /wishlist] (behind [verifyJWT]) *)
Definition get_wishlist (now : Z) (req : request) (st : db) : response * db :=
  if negb (truthy_opt (user_email req)) then (forbidden_email, st)
  else
    let userEmail := default VNull (user_email req) in
    (respond 200 (Items (find [("email", userEmail)] (favoriteCollection st))), st).

Definition not_found : response :=
  respond 404 (Message "Not found or not authorized to delete").

(** [DELETE /wishlist/:id] (behind [verifyJWT]) *)
Definition delete_wishlist (now : Z) (req : request) (st : db) : response * db :=
  let id := default "" (params req !! "id") in
  if negb (ObjectId_isValid id) then (respond 400 (Message "Invalid id"), st)
  else if negb (truthy_opt (user_email req)) then (forbidden_email, st)
  else
    let userEmail := default VNull (user_email req) in
    match ObjectId_new id with
    | None =>
        (* the constructor throws: caught *)
        (respond 500 (Message "Server error deleting wishlist item"), st)
    | Some oid =>
        let '(deletedCount, c) :=
          deleteOne [("_id", VOid oid); ("email", userEmail)] (favoriteCollection st) in
        if (deletedCount =? 0)%nat then (not_found, st)
        else (respond 200 (DeletedCount deletedCount), with_favorite st c (next_pk st))
    end.

(** [GET /] *)
Definition get_root (now : Z) (req : request) (st : db) : response * db :=
  (respond 200 (Text "Hello World — Travling warp!"), st).

(** A handler registered behind the middleware. *)
Definition guarded (handler : Z → request → db → response * db)
  (now : Z) (req : request) (st : db) : response * db :=
  match verifyJWT now req with
  | inl r => (r, st)
  | inr req' => handler now req' st
  end.

Inductive route :=
| GET_root
| POST_users
| POST_jwt
| POST_logout
| POST_wishlist
| POST_wishlist_recommend
| GET_wishlist
| DELETE_wishlist.

(** The routing table of [run]: the handler of each route, and whether it
    is registered behind [verifyJWT]. *)
Definition handler (r : route) : Z → request → db → response * db :=
  match r with
  | GET_root => get_root
  | POST_users => post_users
  | POST_jwt => post_jwt
  | POST_logout => post_logout
  | POST_wishlist => post_wishlist
  | POST_wishlist_recommend => post_wishlist_recommend
  | GET_wishlist => get_wishlist
  | DELETE_wishlist => delete_wishlist
  end.

Definition behind_verifyJWT (r : route) : bool :=
  match r with
  | POST_wishlist | POST_wishlist_recommend | GET_wishlist | DELETE_wishlist => true
  | GET_root | POST_users | POST_jwt | POST_logout => false
  end.

Definition serve (r : route) : Z → request → db → response * db :=
  if behind_verifyJWT r then guarded (handler r) else handler r.

End Server.

(** ** Cross-origin policy

    [allowedOrigins], the [origin] callback handed to [cors], and the
    application with that layer in front of every route.
    [String.prototype.trim] is a builtin: the configuration takes it as the
    argument [trim]. *)

(** [process.env.ALLOWED_ORIGINS || 'http://localhost:5173'] *)
Definition configured_origins (ALLOWED_ORIGINS : option string) : string :=
  match ALLOWED_ORIGINS with
  | Some s => if bool_decide (s = "") then "http://localhost:5173" else s
  | None => "http://localhost:5173"
  end.

(** [(process.env.ALLOWED_ORIGINS || 'http://localhost:5173')
      .split(',').map(s => s.trim())] *)
Definition allowedOrigins (trim : string → string)
  (ALLOWED_ORIGINS : option string) : list string :=
  trim <$> split "," (configured_origins ALLOWED_ORIGINS).

(** The [origin] callback: [true] is [callback(null, true)], [false] the
    error "CORS policy: Origin not allowed". *)
Definition cors_origin (allowed : list string) (origin : option string) : bool :=
  match origin with
  | None => true
  | Some o => if bool_decide (o = "") then true else bool_decide (o ∈ allowed)
  end.


(** *** [trim] on ASCII strings

    On a string of ASCII characters the builtin removes the characters 9 to
    13 and 32 from both ends; the other white space it knows lies outside
    ASCII. *)

Definition is_space (c : ascii) : bool :=
  let n := N_of_ascii c in
  ((9 <=? n) && (n <=? 13) || (n =? 32))%N.

Fixpoint trimStart (s : string) : string :=
  match s with
  | EmptyString => EmptyString
  | String c s' => if is_space c then trimStart s' else s
  end.

Fixpoint trimEnd (s : string) : string :=
  match s with
  | EmptyString => EmptyString
  | String c s' =>
      match trimEnd s' with
      | EmptyString => if is_space c then EmptyString else String c EmptyString
      | t => String c t
      end
  end.

Definition trim_ascii (s : string) : string := trimEnd (trimStart s).

Definition ascii_only (s : string) : Prop :=
  Forall (λ c, (N_of_ascii c < 128)%N) (list_ascii_of_string s).

(** ** The previous revision of the routes ([index.js])

    The same routes before the rewrite: the middleware reads the cookie
    only, the wishlist handlers take the owner from the body, list the whole
    collection and delete by identifier alone.  [None] is a handler that
    threw outside [try]/[catch]: it sent no response itself, and what
    becomes of its rejected promise is left to Express. *)

Module Previous.

Section Server.

Context {env : Env}.

Definition cookieOptions : cookie_options :=
  {| httpOnly := true; secure := false; sameSite := "Lax" |}.

Definition verifyJWT (now : Z) (req : request) : response + request :=
  match cookies req !! "token" with
  | None => inl (respond 401 (Message "Unauthorized: No token provided"))
  | Some token =>
      if bool_decide (token = "") then
        inl (respond 401 (Message "Unauthorized: No token provided"))
      else match jwt_verify token now with
           | inl _ => inl (respond 403 (Message "Forbidden: Invalid token"))
           | inr decoded => inr (set_user req decoded)
           end
  end.

(** [POST /users] *)
Definition post_users (now : Z) (req : request) (st : db)
  : option response * db :=
  match body req with
  | None => (None, st)
  | Some u =>
      match findOne [("email", get u "email")] (usersCollection st) with
      | Some _ => (Some (respond 200 (Message "User already exists")), st)
      | None =>
          match insertOne u (usersCollection st) (next_pk st) with
          | None => (None, st)
          | Some (id, c, pk) =>
              let payload := from_option (λ v, {["email" := v]}) ∅ (u !! "email") in
              let token := jwt_sign payload "365d" now in
              (Some {| status := 200; json := InsertedId id;
                       cookie := SetCookie "token" token cookieOptions |},
               with_users st c pk)
          end
      end
  end.

(** [POST /wishlist] (behind [verifyJWT]) *)
Definition post_wishlist (now : Z) (req : request) (st : db)
  : option response * db :=
  match body req with
  | None => (Some (respond 400 (Message "Invalid wishlist data")), st)
  | Some favoriteItem =>
      if negb (truthy_opt (favoriteItem !! "id"))
         || negb (truthy_opt (favoriteItem !! "email"))
      then (Some (respond 400 (Message "Invalid wishlist data")), st)
      else
        match findOne [("id", get favoriteItem "id");
                       ("email", get favoriteItem "email")]
                (favoriteCollection st) with
        | Some _ =>
            (Some (respond 400 (Message "Item already added to wishlist")), st)
        | None =>
            match insertOne favoriteItem (favoriteCollection st) (next_pk st) with
            | Some (id, c, pk) =>
                (Some (respond 200 (InsertOneResult id)), with_favorite st c pk)
            | None => (Some (respond 500 (Message "Server error")), st)
            end
        end
  end.

(** [POST /wishlist-recommend] (behind [verifyJWT]) *)
Definition post_wishlist_recommend (now : Z) (req : request) (st : db)
  : option response * db :=
  match body req with
  | None => (Some (respond 400 (Message "Invalid wishlist data")), st)
  | Some item =>
      if negb (truthy_opt (item !! "hotelId")) || negb (truthy_opt (item !! "name"))
         || negb (truthy_opt (item !! "email"))
      then (Some (respond 400 (Message "Invalid wishlist data")), st)
      else
        match findOne [("hotelId", get item "hotelId"); ("email", get item "email")]
                (favoriteCollection st) with
        | Some _ => (Some (respond 200 (Message "Already in wishlist")), st)
        | None =>
            match insertOne item (favoriteCollection st) (next_pk st) with
            | Some (id, c, pk) =>
                (Some (respond 200 (InsertOneResult id)), with_favorite st c pk)
            | None => (None, st)
            end
        end
  end.

(** [GET /wishlist] (behind [verifyJWT]) *)
Definition get_wishlist (now : Z) (req : request) (st : db)
  : option response * db :=
  (Some (respond 200 (Items (find [] (favoriteCollection st)))), st).

(** [DELETE /wishlist/:id] (behind [verifyJWT]) *)
Definition delete_wishlist (now : Z) (req : request) (st : db)
  : option response * db :=
  match ObjectId_new (default "" (params req !! "id")) with
  | None => (None, st)
  | Some oid =>
      let '(deletedCount, c) :=
        deleteOne [("_id", VOid oid)] (favoriteCollection st) in
      (Some (respond 200 (DeleteResult deletedCount)),
       with_favorite st c (next_pk st))
  end.

Definition guarded (handler : Z → request → db → option response * db)
  (now : Z) (req : request) (st : db) : option response * db :=
  match verifyJWT now req with
  | inl r => (Some r, st)
  | inr req' => handler now req' st
  end.

End Server.

End Previous.

(** ** Vocabulary of the properties *)

(** The owner of a stored item is its [email] field. *)
Definition owned_by (O : value) (d : doc) : Prop := d !! "email" = Some O.

#[global] Instance owned_by_dec O d : Decision (owned_by O d).
Proof. unfold owned_by. apply _. Defined.

(** The item carries the store identifier [oid]. *)
Definition has_oid (oid : N) (d : doc) : Prop := d !! "_id" = Some (VOid oid).

(** The item has the deduplication key [(O, E)] under the field [k]
    ([id] for plain items, [hotelId] for recommendations). *)
Definition keyed (k : string) (O E : value) (d : doc) : bool :=
  bool_decide (d !! k = Some E ∧ d !! "email" = Some O).

Definition count_keyed (k : string) (O E : value) (c : list doc) : nat :=
  length (List.filter (keyed k O E) c).

(** The user record has the (normalized) email [e]. *)
Definition has_email (e : string) (d : doc) : bool :=
  bool_decide (d !! "email" = Some (VStr e)).

Definition count_email (e : string) (c : list doc) : nat :=
  length (List.filter (has_email e) c).

(** The item [POST /wishlist] and [POST /wishlist-recommend] hand to
    [insertOne]: the body with [email] overwritten by the email of the
    token, and the creation date. *)
Definition item_to_store (now : Z) (O : value) (item : doc) : doc :=
  <["createdAt" := VDate now]> (<["email" := O]> item).

(** The [$set] document [POST /users] builds from a profile. *)
Definition profile_set (email : string) (now : Z) (profile : doc) : doc :=
  <["updatedAt" := VDate now]> (<["email" := VStr email]> (delete "createdAt" profile)).



(** A fresh database. *)
Definition empty_db : db :=
  {| favoriteCollection := []; usersCollection := []; next_pk := 0 |}.

(** The values [express.json()] can produce. *)
Definition is_json (v : value) : bool :=
  match v with
  | VOid _ | VDate _ => false
  | _ => true
  end.

Definition json_doc (d : doc) : Prop :=
  ∀ k v, d !! k = Some v → is_json v = true.

Definition json_request (req : request) : Prop :=
  ∀ b, body req = Some b → json_doc b.

(** The primary keys of a collection. *)
Definition ids (c : list doc) : list (option value) :=
  (λ d : doc, d !! "_id") <$> c.

(** Every [ObjectId] in the collection was created before [pk]. *)
Definition pk_below (pk : N) (c : list doc) : Prop :=
  ∀ o, Some (VOid o) ∈ ids c → (o < pk)%N.

(** What the unique index on [_id] and the key source guarantee. *)
Record store_ok (st : db) : Prop := StoreOk {
  favorite_ids : NoDup (ids (favoriteCollection st));
  users_ids : NoDup (ids (usersCollection st));
  favorite_below : pk_below (next_pk st) (favoriteCollection st);
  users_below : pk_below (next_pk st) (usersCollection st)
}.


(** What every stored wishlist item carries: an owner, a primary key and a
    creation date. *)
Definition item_ok (d : doc) : Prop :=
  truthy_opt (d !! "email") = true
  ∧ is_Some (d !! "_id")
  ∧ ∃ t, d !! "createdAt" = Some (VDate t).



(** The routes that answer without ever writing to the store. *)
Definition read_only (r : route) : bool :=
  match r with
  | GET_root | POST_jwt | POST_logout | GET_wishlist => true
  | _ => false
  end.

(** The email the session token of a request verifies to, when the
    middleware lets the request through. *)
Definition caller {env : Env} (now : Z) (req : request) : option value :=
  match verifyJWT now req with
  | inr req' => user_email req'
  | inl _ => None
  end.

(** The states the server can be in: from a fresh database, by serving
    requests with JSON bodies. *)
Inductive reachable {env : Env} : db → Prop :=
| reachable_init : reachable empty_db
| reachable_serve st r now req :
    reachable st → json_request req → reachable (serve r now req st).2.

(** ** A sample environment, to run the server on concrete requests *)

Module Sample.

Definition lower (c : ascii) : ascii :=
  let n := N_of_ascii c in
  if ((65 <=? n) && (n <=? 90))%N then ascii_of_N (n + 32) else c.

Fixpoint toLowerCase (s : string) : string :=
  match s with
  | EmptyString => EmptyString
  | String c s' => String (lower c) (toLowerCase s')
  end.

(** Tokens of the sample environment: the subject after a fixed tag. *)
Definition jwt_sign (payload : doc) (expiresIn : string) (now : Z) : string :=
  match payload !! "email" with
  | Some (VStr e) => String.append "tok:" e
  | _ => "tok:"
  end.

Definition jwt_verify (token : string) (now : Z) : jwt_error + doc :=
  if String.prefix "tok:" token
  then inr {["email" := VStr (String.substring 4 (String.length token - 4) token)]}
  else inl (JsonWebTokenError "jwt malformed").

Definition env : Env :=
  Build_Env "development" jwt_sign jwt_verify toLowerCase.

Definition serve := @serve env.

(** A request carrying the session cookie of [email]. *)
Definition as_user (email : string) (b : option doc) (id : string) : request :=
  {| cookies := {["token" := String.append "tok:" email]}; headers := ∅;
     params := {["id" := id]}; url_query := ∅; body := b; user := None |}.

(** A request without a session. *)
Definition anonymous : request :=
  {| cookies := ∅; headers := ∅; params := ∅; url_query := ∅; body := None;
     user := None |}.

Definition alice : value := VStr "alice@x.com".
Definition bob : value := VStr "bob@x.com".

(** A wishlist body; the email it carries is not the caller's. *)
Definition hotel (id : string) : doc :=
  {["id" := VStr id; "title" := VStr "Sea view"; "email" := VStr "mallory@x.com"]}.

Definition recommendation (hotelId : string) : doc :=
  {["hotelId" := VStr hotelId; "name" := VStr "Grand"]}.

(** The store after alice, then bob, saved the same hotel: the items get
    the identifiers 0 and 1. *)
Definition two_owners : db :=
  (serve POST_wishlist 2 (as_user "bob@x.com" (Some (hotel "h1")) "")
     (serve POST_wishlist 1 (as_user "alice@x.com" (Some (hotel "h1")) "")
        empty_db).2).2.

Definition oid0 : string := "000000000000000000000000".
Definition oid1 : string := "000000000000000000000001".

(** Two profiles for one address: the second one drops [phone]. *)
Definition profile1 : doc :=
  {["email" := VStr "Alice@X.com"; "phone" := VStr "555-0100"]}.
Definition profile2 : doc :=
  {["email" := VStr "alice@x.com"; "name" := VStr "Alice"; "createdAt" := VDate 0]}.


End Sample.

(** More requests and states of the sample environment. *)
Module Cases.

(** A request carrying a bearer header and no cookie. *)
Definition with_bearer (token : string) (b : option doc) (id : string) : request :=
  {| cookies := ∅; headers := {["authorization" := String.append "Bearer " token]};
     params := {["id" := id]}; url_query := ∅; body := b; user := None |}.

(** A cookie that does not verify next to a bearer header that does. *)
Definition bad_cookie_good_header : request :=
  {| cookies := {["token" := "forged"]};
     headers := {["authorization" := "Bearer tok:alice@x.com"]};
     params := ∅; url_query := ∅; body := None; user := None |}.

(** A token that verifies to a payload without email. *)
Definition env_no_email : Env :=
  Build_Env "production" Sample.jwt_sign (λ _ _, inr ∅) Sample.toLowerCase.

(** The store after alice registered and saved one hotel. *)
Definition alice_registered : db :=
  (Sample.serve POST_users 1 (Sample.as_user "" (Some Sample.profile1) "") empty_db).2.

Definition alice_saved : db :=
  (Sample.serve POST_wishlist 2
     (Sample.as_user "alice@x.com" (Some (Sample.hotel "h1")) "") alice_registered).2.

Definition zero_id : doc := {["id" := VNum 0; "title" := VStr "First"]}.


Definition oid2 : string := "000000000000000000000002".

(** The body of a [POST /jwt] for alice, in capitals. *)
Definition jwt_body : doc := {["email" := VStr "ALICE@X.COM"]}.

(** The first document of a collection. *)
Definition first_of (c : list doc) : doc := default ∅ (c !! 0%nat).

(** alice's session on a request with the body [p]. *)
Definition alice_sends (p : doc) : request :=
  Sample.as_user "alice@x.com" (Some p) "".

(** A recommendation body that also carries an [id]. *)
Definition recommendation_with_id (hotelId id : string) : doc :=
  <["id" := VStr id]> (Sample.recommendation hotelId).

(** The store after alice saved two recommendations, of the hotels H1 and
    H2, whose bodies both carry the id h1. *)
Definition recommended_twice : db :=
  (Sample.serve POST_wishlist_recommend 2
     (alice_sends (recommendation_with_id "H2" "h1"))
     (Sample.serve POST_wishlist_recommend 1
        (alice_sends (recommendation_with_id "H1" "h1")) empty_db).2).2.

(** A wishlist body that also carries a [hotelId] and a [name]. *)
Definition hotel_with_hotelId (id hotelId : string) : doc :=
  <["hotelId" := VStr hotelId]> (<["name" := VStr "Grand"]> (Sample.hotel id)).

(** The store after alice saved two items, a and b, whose bodies both carry
    the hotelId H7. *)
Definition saved_twice : db :=
  (Sample.serve POST_wishlist 2 (alice_sends (hotel_with_hotelId "b" "H7"))
     (Sample.serve POST_wishlist 1 (alice_sends (hotel_with_hotelId "a" "H7"))
        empty_db).2).2.

(** A body that chooses its own primary key. *)
Definition with_pk (pk : string) (p : doc) : doc := <["_id" := VStr pk]> p.

(** The store after alice saved an item under the primary key k. *)
Definition pk_taken : db :=
  (Sample.serve POST_wishlist 1 (alice_sends (with_pk "k" (Sample.hotel "a")))
     empty_db).2.

(** Another payload for the hotel h1. *)
Definition harbour : doc := <["title" := VStr "Harbour"]> (Sample.hotel "h1").


(** A configuration of two origins, with white space around the comma. *)
Definition two_origins : option string :=
  Some "https://app.example.com , http://localhost:5173".

End Cases.

(** * Properties *)

(** ** Queries *)

Lemma truthy_not_null v : truthy v = true → v ≠ VNull.
Proof. by destruct v. Qed.

Lemma match_field_eq d k v :
  v ≠ VNull → match_field d (k, v) = true ↔ d !! k = Some v.
Proof.
  intros Hv. unfold match_field; simpl.
  destruct v; try done; by rewrite bool_decide_eq_true.
Qed.

Lemma matches_single d k v :
  v ≠ VNull → matches [(k, v)] d = true ↔ d !! k = Some v.
Proof.
  intros Hv. unfold matches; simpl.
  rewrite andb_true_r. by apply match_field_eq.
Qed.

Lemma matches_pair d k1 v1 k2 v2 :
  v1 ≠ VNull → v2 ≠ VNull →
  matches [(k1, v1); (k2, v2)] d = true ↔ d !! k1 = Some v1 ∧ d !! k2 = Some v2.
Proof.
  intros H1 H2. unfold matches; simpl.
  rewrite andb_true_r, andb_true_iff.
  by rewrite !match_field_eq.
Qed.

Lemma matches_keyed k O E d :
  truthy E = true → truthy O = true →
  matches [(k, E); ("email", O)] d = keyed k O E d.
Proof.
  intros HE HO. apply truthy_not_null in HE, HO.
  apply eq_true_iff_eq. rewrite matches_pair by done.
  unfold keyed. by rewrite bool_decide_eq_true.
Qed.

Lemma find_ext_bool {A} (f g : A → bool) l :
  (∀ x, f x = g x) → List.find f l = List.find g l.
Proof.
  intros Hfg. induction l as [|x l IH]; simpl; [done|].
  rewrite Hfg, IH. done.
Qed.

Lemma find_email_filter O c :
  truthy O = true → find [("email", O)] c = filter (owned_by O) c.
Proof.
  intros HO. apply truthy_not_null in HO. unfold find.
  induction c as [|d c IH]; [done|].
  rewrite filter_cons, <- IH. cbn [List.filter].
  destruct (matches [("email", O)] d) eqn:Hm.
  - apply matches_single in Hm; [|done]. by rewrite decide_True.
  - rewrite decide_False; [done|].
    intros Hd. apply (matches_single d "email" O HO) in Hd. congruence.
Qed.

Section Properties.

Context {env : Env}.

(** ** The session guard *)

Lemma user_email_set_user req u : user_email (set_user req u) = u !! "email".
Proof. done. Qed.

Lemma body_set_user req u : body (set_user req u) = body req.
Proof. done. Qed.

Lemma params_set_user req u : params (set_user req u) = params req.
Proof. done. Qed.

Lemma verifyJWT_absent now req :
  extract_token req = None ∨ extract_token req = Some "" →
  verifyJWT now req = inl unauthorized.
Proof. unfold verifyJWT. by intros [-> | ->]. Qed.

Lemma verifyJWT_rejected now req token err :
  extract_token req = Some token → token ≠ "" →
  jwt_verify token now = inl err →
  verifyJWT now req = inl forbidden_token.
Proof.
  intros Ht Hne Hv. unfold verifyJWT.
  by rewrite Ht, bool_decide_false, Hv.
Qed.

Lemma verifyJWT_admitted now req token decoded :
  extract_token req = Some token → token ≠ "" →
  jwt_verify token now = inr decoded →
  verifyJWT now req = inr (set_user req decoded).
Proof.
  intros Ht Hne Hv. unfold verifyJWT.
  by rewrite Ht, bool_decide_false, Hv.
Qed.

(** What the middleware returns, by cases on the token and on its
    verification. *)
Lemma verifyJWT_cases now req :
  (verifyJWT now req = inl unauthorized
   ∧ (extract_token req = None ∨ extract_token req = Some ""))
  ∨ (verifyJWT now req = inl forbidden_token
     ∧ ∃ token err, extract_token req = Some token ∧ token ≠ ""
                    ∧ jwt_verify token now = inl err)
  ∨ (∃ token decoded, verifyJWT now req = inr (set_user req decoded)
       ∧ extract_token req = Some token ∧ token ≠ ""
       ∧ jwt_verify token now = inr decoded).
Proof.
  unfold verifyJWT.
  destruct (extract_token req) as [token|] eqn:Ht; [|left; auto].
  case_bool_decide as Hne; [subst; left; auto|].
  destruct (jwt_verify token now) as [err|decoded] eqn:Hv.
  - right; left. split; [done|]. by exists token, err.
  - right; right. by exists token, decoded.
Qed.

Lemma caller_decoded now req O :
  caller now req = Some O →
  ∃ decoded, verifyJWT now req = inr (set_user req decoded)
             ∧ decoded !! "email" = Some O.
Proof.
  unfold caller.
  destruct (verifyJWT_cases now req)
    as [[-> _] | [[-> _] | (token & decoded & -> & _)]]; try done.
  rewrite user_email_set_user. intros H. by exists decoded.
Qed.

(** A request let through reaches the handler with [req.user] set. *)
Lemma serve_caller r now req st O :
  behind_verifyJWT r = true → caller now req = Some O →
  ∃ decoded, decoded !! "email" = Some O
             ∧ serve r now req st = handler r now (set_user req decoded) st.
Proof.
  intros Hr Hc. destruct (caller_decoded _ _ _ Hc) as (decoded & Hv & He).
  exists decoded. split; [done|].
  unfold serve, guarded. by rewrite Hr, Hv.
Qed.

(** ** Token extraction *)

Lemma split_no_sep sep s :
  Forall (λ c, c ≠ sep) (list_ascii_of_string s) → split sep s = [s].
Proof.
  induction s as [|c s IH]; simpl; [done|].
  intros Hs. apply Forall_cons in Hs as [Hc Hs].
  rewrite (IH Hs). by rewrite (proj2 (Ascii.eqb_neq c sep) Hc).
Qed.

Lemma split_cons_eq sep s :
  split sep (String sep s) = EmptyString :: split sep s.
Proof. simpl. by rewrite Ascii.eqb_refl. Qed.

Lemma split_nonempty sep s : split sep s ≠ [].
Proof.
  induction s as [|c s IH]; simpl; [done|].
  destruct (Ascii.eqb c sep); [done|]. by destruct (split sep s).
Qed.

Lemma split_cons_ne sep c s :
  c ≠ sep →
  split sep (String c s)
  = String c (hd EmptyString (split sep s)) :: tl (split sep s).
Proof.
  intros Hc. simpl. rewrite (proj2 (Ascii.eqb_neq c sep) Hc).
  pose proof (split_nonempty sep s). by destruct (split sep s).
Qed.

Lemma bearer_value v :
  Forall (λ c, c ≠ " "%char) (list_ascii_of_string v) →
  String.prefix "Bearer " (String.append "Bearer " v) = true
  ∧ split " " (String.append "Bearer " v) !! 1%nat = Some v.
Proof.
  intros Hv. split.
  - simpl. destruct v; reflexivity.
  - change (String.append "Bearer " v)
      with (String "B" (String "e" (String "a" (String "r" (String "e"
             (String "r" (String " " v))))))).
    cbn -[split]. rewrite !split_cons_ne, split_cons_eq by done.
    by rewrite (split_no_sep _ _ Hv).
Qed.

(** C8.  [extract_token] reads the [token] cookie first: a non-empty cookie
    is the token whatever the headers are.  Only when the cookie is absent
    (undefined or empty) is the [authorization] header read: a header
    [Bearer v] yields the text after the first space up to the next one
    ([v] itself when [v] has no space), a header that does not start with
    [Bearer ] or a missing header yields no token.  Nothing else in the
    request is read: two requests with the same [token] cookie and the same
    [authorization] header yield the same token. *)
Theorem extract_token_sources req :
  (∀ t, cookies req !! "token" = Some t → t ≠ "" → extract_token req = Some t)
  ∧ (cookies req !! "token" = None ∨ cookies req !! "token" = Some "" →
     (∀ a, headers req !! "authorization" = Some a →
           String.prefix "Bearer " a = true →
           extract_token req = split " " a !! 1%nat)
     ∧ (∀ v, headers req !! "authorization" = Some (String.append "Bearer " v) →
             Forall (λ c, c ≠ " "%char) (list_ascii_of_string v) →
             extract_token req = Some v)
     ∧ (∀ a, headers req !! "authorization" = Some a →
             String.prefix "Bearer " a = false → extract_token req = None)
     ∧ (headers req !! "authorization" = None → extract_token req = None))
  ∧ (∀ req', cookies req' !! "token" = cookies req !! "token" →
             headers req' !! "authorization" = headers req !! "authorization" →
             extract_token req' = extract_token req).
Proof.
  split; [|split].
  - intros t Ht Hne. unfold extract_token. by rewrite Ht, bool_decide_false.
  - intros Hc.
    assert (extract_token req = bearer_token req) as ->.
    { unfold extract_token. by destruct Hc as [-> | ->]. }
    unfold bearer_token. repeat split.
    + by intros a -> ->.
    + intros v -> Hv. destruct (bearer_value v Hv) as [-> ->]. done.
    + by intros a -> ->.
    + by intros ->.
  - intros req' Hc Hh. unfold extract_token, bearer_token. by rewrite Hc, Hh.
Qed.

(** C6.  On every route registered behind [verifyJWT]: without a token the
    answer is 401 and the store is untouched; with a token that
    [jwt.verify] rejects, whatever the error (expired, malformed, bad
    signature), the answer is the one 403 response and the store is
    untouched; with a token that verifies, the handler runs on the request
    with [req.user] set to the decoded payload, so [req.user.email] is the
    email of the token. *)
Theorem auth_guard_outcomes r now req st :
  behind_verifyJWT r = true →
  (extract_token req = None ∨ extract_token req = Some "" →
   serve r now req st
   = (respond 401 (Message "Unauthorized: No token provided"), st))
  ∧ (∀ token err,
       extract_token req = Some token → token ≠ "" →
       jwt_verify token now = inl err →
       serve r now req st
       = (respond 403 (Message "Forbidden: Invalid or expired token"), st))
  ∧ (∀ token decoded,
       extract_token req = Some token → token ≠ "" →
       jwt_verify token now = inr decoded →
       serve r now req st = handler r now (set_user req decoded) st
       ∧ user_email (set_user req decoded) = decoded !! "email").
Proof.
  intros Hr. unfold serve, guarded. rewrite Hr. repeat split.
  - intros Ht. by rewrite (verifyJWT_absent _ _ Ht).
  - intros token err Ht Hne Hv. by rewrite (verifyJWT_rejected _ _ _ _ Ht Hne Hv).
  - rename select (extract_token _ = _) into Ht.
    rename select (_ ≠ _) into Hne.
    rename select (jwt_verify _ _ = _) into Hv.
    by rewrite (verifyJWT_admitted _ _ _ _ Ht Hne Hv).
Qed.

(** ** Listing *)

Lemma get_wishlist_items now req st O :
  user_email req = Some O → truthy O = true →
  get_wishlist now req st
  = (respond 200 (Items (filter (owned_by O) (favoriteCollection st))), st).
Proof.
  intros He HO. unfold get_wishlist. rewrite He. simpl. rewrite HO. simpl.
  by rewrite find_email_filter.
Qed.

(** C1.  [GET /wishlist] for a caller whose token verifies to the email [O]
    answers 200 with exactly the stored items whose [email] is [O], in the
    order of the collection (insertion order), and leaves the store as it
    is.  The answer is a function of [O] and the store alone: nothing else
    in the request (query parameters, body, route parameters) changes it,
    and no item of another owner is in it, however many the store holds. *)
Theorem list_items_owner_scoped now req st O :
  caller now req = Some O → truthy O = true →
  let items := filter (owned_by O) (favoriteCollection st) in
  serve GET_wishlist now req st = (respond 200 (Items items), st)
  ∧ Forall (owned_by O) items
  ∧ items `sublist_of` favoriteCollection st
  ∧ (∀ d, d ∈ items ↔ d ∈ favoriteCollection st ∧ owned_by O d).
Proof.
  intros Hc HO items.
  destruct (serve_caller GET_wishlist now req st O eq_refl Hc) as (u & Hu & ->).
  split; [|split; [|split]].
  - simpl. by apply get_wishlist_items.
  - apply Forall_forall. intros d Hd. by apply list_elem_of_filter in Hd as [? _].
  - apply sublist_filter.
  - intros d. unfold items. rewrite list_elem_of_filter. tauto.
Qed.

(** ** Removal *)

Lemma is_hex_value c : is_hex c = true → is_Some (hex_value c).
Proof.
  unfold is_hex, hex_value. intros Hc.
  destruct ((48 <=? N_of_ascii c) && (N_of_ascii c <=? 57))%N; [eauto|].
  destruct ((97 <=? N_of_ascii c) && (N_of_ascii c <=? 102))%N; [eauto|].
  destruct ((65 <=? N_of_ascii c) && (N_of_ascii c <=? 70))%N; [eauto|done].
Qed.

Lemma hex_value_is_hex c : is_Some (hex_value c) → is_hex c = true.
Proof.
  unfold is_hex, hex_value. intros [v Hv].
  destruct ((48 <=? N_of_ascii c) && (N_of_ascii c <=? 57))%N; [done|].
  destruct ((97 <=? N_of_ascii c) && (N_of_ascii c <=? 102))%N; [done|].
  destruct ((65 <=? N_of_ascii c) && (N_of_ascii c <=? 70))%N; done.
Qed.

Lemma hex_decode_total s acc :
  forallb is_hex (list_ascii_of_string s) = true ↔ is_Some (hex_decode acc s).
Proof.
  revert acc. induction s as [|c s IH]; intros acc; simpl.
  - split; eauto.
  - rewrite andb_true_iff. split.
    + intros [Hc Hs]. destruct (is_hex_value c Hc) as [v ->]. by apply IH.
    + destruct (hex_value c) as [v|] eqn:Hv; [|by intros [? ?]].
      intros Hs. split; [apply hex_value_is_hex; eauto | by eapply IH].
Qed.

(** The guard and the constructor agree: [ObjectId.isValid] holds exactly
    of the strings [new ObjectId] accepts. *)
Lemma ObjectId_isValid_new id :
  ObjectId_isValid id = true ↔ is_Some (ObjectId_new id).
Proof.
  unfold ObjectId_isValid, ObjectId_new.
  destruct (String.length id =? 24)%nat; simpl.
  - apply hex_decode_total.
  - split; [done | by intros [? ?]].
Qed.

Lemma deleteOne_no_match q c :
  Forall (λ d, matches q d = false) c → deleteOne q c = (0%nat, c).
Proof.
  induction 1 as [|d c Hd _ IH]; simpl; [done|]. by rewrite Hd, IH.
Qed.

Lemma deleteOne_spec q c :
  (deleteOne q c = (0%nat, c) ∧ Forall (λ d, matches q d = false) c)
  ∨ (∃ l1 d l2, c = l1 ++ d :: l2 ∧ Forall (λ d, matches q d = false) l1
                ∧ matches q d = true ∧ deleteOne q c = (1%nat, l1 ++ l2)).
Proof.
  induction c as [|d c IH]; simpl; [left; auto|].
  destruct (matches q d) eqn:Hd.
  - right. by exists [], d, c.
  - destruct IH as [[-> Hc] | (l1 & d' & l2 & -> & Hl1 & Hd' & ->)].
    + left. split; [done|]. by constructor.
    + right. exists (d :: l1), d', l2. repeat split; [|done]. by constructor.
Qed.

Lemma deleteOne_first q l1 d l2 :
  Forall (λ d, matches q d = false) l1 → matches q d = true →
  deleteOne q (l1 ++ d :: l2) = (1%nat, l1 ++ l2).
Proof.
  intros Hl1 Hd. induction Hl1 as [|x l1 Hx _ IH]; simpl.
  - by rewrite Hd.
  - by rewrite Hx, IH.
Qed.

(** [DELETE /wishlist/:id] behind the two guards. *)
Lemma delete_wishlist_valid now req st O id oid :
  params req !! "id" = Some id → ObjectId_new id = Some oid →
  user_email req = Some O → truthy O = true →
  delete_wishlist now req st
  = let '(n, c) := deleteOne [("_id", VOid oid); ("email", O)] (favoriteCollection st) in
    if (n =? 0)%nat then (not_found, st)
    else (respond 200 (DeletedCount n), with_favorite st c (next_pk st)).
Proof.
  intros Hid Hoid He HO. unfold delete_wishlist. rewrite Hid, He. simpl.
  rewrite (proj2 (ObjectId_isValid_new id)) by eauto.
  rewrite HO, Hoid. done.
Qed.

Lemma delete_wishlist_invalid now req st :
  ObjectId_isValid (default "" (params req !! "id")) = false →
  delete_wishlist now req st = (respond 400 (Message "Invalid id"), st).
Proof. intros Hid. unfold delete_wishlist. by rewrite Hid. Qed.

(** C7.  On [DELETE /wishlist/:id], for any request the middleware lets
    through and any [id] that is not a valid ObjectId string, the answer is
    400 and the store is not touched.  Past the guard the constructor
    cannot throw: [ObjectId.isValid] accepts exactly the strings
    [new ObjectId] accepts, so the handler never ends in the 500 of its
    catch block. *)
Theorem remove_invalid_id_rejected now req req' st id :
  verifyJWT now req = inr req' →
  params req !! "id" = Some id →
  ObjectId_isValid id = false →
  serve DELETE_wishlist now req st = (respond 400 (Message "Invalid id"), st)
  ∧ (∀ id', ObjectId_isValid id' = true → is_Some (ObjectId_new id'))
  ∧ (∀ now' r st', status (delete_wishlist now' r st').1 ≠ 500%nat).
Proof.
  intros Hv Hid Hbad. split; [|split].
  - unfold serve, guarded; simpl. rewrite Hv.
    destruct (verifyJWT_cases now req)
      as [[Hv' _] | [[Hv' _] | (token & decoded & Hv' & _)]];
      rewrite Hv' in Hv; simplify_eq.
    apply delete_wishlist_invalid. rewrite params_set_user, Hid. done.
  - intros id'. apply ObjectId_isValid_new.
  - intros now' r st'. unfold delete_wishlist.
    destruct (ObjectId_isValid (default "" (params r !! "id"))) eqn:Hok;
      simpl; [|done].
    destruct (truthy_opt (user_email r)); simpl; [|done].
    apply ObjectId_isValid_new in Hok as [oid ->].
    destruct (deleteOne _ _) as [n c]. by destruct (n =? 0)%nat.
Qed.

(** C2.  On [DELETE /wishlist/:id] for a caller [O] and a valid identifier:
    when no stored item with that identifier is owned by [O] (there is no
    such item, or it is another owner's), the answer is the 404 response
    and the store is exactly as before.  The response is one fixed value,
    the same in the two cases: nothing in it depends on the identifier, on
    the store or on the other owner. *)
Theorem remove_not_owned_not_found now req st O id oid :
  caller now req = Some O → truthy O = true →
  params req !! "id" = Some id → ObjectId_new id = Some oid →
  (∀ d, d ∈ favoriteCollection st → has_oid oid d → ¬ owned_by O d) →
  serve DELETE_wishlist now req st
  = (respond 404 (Message "Not found or not authorized to delete"), st).
Proof.
  intros Hc HO Hid Hoid Hnone.
  destruct (serve_caller DELETE_wishlist now req st O eq_refl Hc) as (u & Hu & ->).
  simpl. rewrite (delete_wishlist_valid now _ st O id oid); try done.
  rewrite deleteOne_no_match; [done|].
  apply Forall_forall. intros d Hd.
  apply not_true_is_false. intros Hm.
  apply matches_pair in Hm as [H1 H2]; [|done|by apply truthy_not_null].
  by apply (Hnone d Hd).
Qed.

(** C10.  [DELETE /wishlist/:id] never touches the users collection, and
    either leaves the wishlist collection as it is or removes exactly one
    item from it, which carries the requested identifier and is owned by
    the caller; all the other items stay, unchanged and in their order. *)
Theorem remove_at_most_one now req st :
  let st' := (serve DELETE_wishlist now req st).2 in
  usersCollection st' = usersCollection st
  ∧ (favoriteCollection st' = favoriteCollection st
     ∨ ∃ l1 d l2 O oid,
         favoriteCollection st = l1 ++ d :: l2
         ∧ favoriteCollection st' = l1 ++ l2
         ∧ caller now req = Some O
         ∧ params req !! "id" ≫= ObjectId_new = Some oid
         ∧ has_oid oid d ∧ owned_by O d).
Proof.
  unfold serve, guarded, caller; simpl.
  destruct (verifyJWT_cases now req)
    as [[-> _] | [[-> _] | (token & u & -> & _)]]; simpl; auto.
  unfold delete_wishlist. rewrite params_set_user, user_email_set_user.
  destruct (ObjectId_isValid _) eqn:Hok; simpl; [|auto].
  destruct (u !! "email") as [O|] eqn:HO; simpl; [|auto].
  destruct (truthy O) eqn:Ht; simpl; [|auto].
  apply ObjectId_isValid_new in Hok as [oid Hoid]. rewrite Hoid.
  destruct (deleteOne_spec [("_id", VOid oid); ("email", O)] (favoriteCollection st))
    as [[-> _] | (l1 & d & l2 & Hc & _ & Hd & ->)]; simpl; [auto|].
  split; [done|]. right. exists l1, d, l2, O, oid.
  apply matches_pair in Hd as [H1 H2]; [|done|by apply truthy_not_null].
  repeat split; try done.
  destruct (params req !! "id") as [id|] eqn:Hid; simpl in *; [done|].
  by vm_compute in Hoid.
Qed.

(** ** Adding *)

Lemma find_none_length {A} (f : A → bool) l :
  List.find f l = None ↔ length (List.filter f l) = 0%nat.
Proof.
  induction l as [|x l IH]; simpl; [done|].
  destruct (f x); simpl; [split; done | exact IH].
Qed.

Lemma findOne_keyed k O E c :
  truthy E = true → truthy O = true →
  findOne [(k, E); ("email", O)] c = None ↔ count_keyed k O E c = 0%nat.
Proof.
  intros HE HO. unfold findOne, count_keyed.
  rewrite (find_ext_bool _ (keyed k O E)) by (intros; by apply matches_keyed).
  apply find_none_length.
Qed.

Lemma count_keyed_app k O E c1 c2 :
  count_keyed k O E (c1 ++ c2) = (count_keyed k O E c1 + count_keyed k O E c2)%nat.
Proof. unfold count_keyed. by rewrite List.filter_app, length_app. Qed.

(** What [insertOne] stores: the document itself, with the primary key
    added when it had none. *)
Lemma insertOne_stored d c pk id c' pk' :
  insertOne d c pk = Some (id, c', pk') →
  ∃ d', c' = c ++ [d'] ∧ d' !! "_id" = Some id
        ∧ ∀ k, k ≠ "_id" → d' !! k = d !! k.
Proof.
  unfold insertOne, assign_pk. intros Hi.
  destruct (d !! "_id") as [v|] eqn:Hd.
  - destruct v;
      match type of Hi with
      | context [existsb ?f c] => destruct (existsb f c); simplify_eq
      end;
      eexists; (split; [done|]); split;
        try done; try apply lookup_insert_eq;
        intros k Hk; by rewrite lookup_insert_ne.
  - destruct (existsb _ c); simplify_eq.
    eexists; split; [done|]. split; [apply lookup_insert_eq|].
    intros k Hk. by rewrite lookup_insert_ne.
Qed.

Lemma insertOne_count k O E d c pk id c' pk' :
  k ≠ "_id" →
  insertOne d c pk = Some (id, c', pk') →
  d !! k = Some E → d !! "email" = Some O →
  count_keyed k O E c' = S (count_keyed k O E c).
Proof.
  intros Hk Hi HE HO.
  destruct (insertOne_stored _ _ _ _ _ _ Hi) as (d' & -> & _ & Hd').
  rewrite count_keyed_app. unfold count_keyed at 2; simpl.
  assert (keyed k O E d' = true) as ->; [|simpl; lia].
  unfold keyed. apply bool_decide_eq_true. by rewrite !Hd'.
Qed.

Lemma item_to_store_email now O item : item_to_store now O item !! "email" = Some O.
Proof. unfold item_to_store. by rewrite lookup_insert_ne, lookup_insert_eq. Qed.

Lemma item_to_store_field now O item k :
  k ≠ "createdAt" → k ≠ "email" → item_to_store now O item !! k = item !! k.
Proof. intros. unfold item_to_store. by rewrite !lookup_insert_ne. Qed.

Lemma post_wishlist_valid now req st item O E :
  body req = Some item → item !! "id" = Some E → truthy E = true →
  user_email req = Some O → truthy O = true →
  post_wishlist now req st
  = if decide (count_keyed "id" O E (favoriteCollection st) = 0%nat) then
      match insertOne (item_to_store now O item) (favoriteCollection st) (next_pk st) with
      | Some (id, c, pk) => (respond 201 (InsertedId id), with_favorite st c pk)
      | None => (respond 500 (Message "Server error adding to wishlist"), st)
      end
    else (respond 409 (Message "Item already added to wishlist"), st).
Proof.
  intros Hb HE HtE HO HtO. unfold post_wishlist.
  rewrite Hb, HE, HO; simpl. rewrite HtE, HtO; simpl.
  unfold get. rewrite lookup_insert_ne, HE by done. simpl.
  destruct (findOne _ _) eqn:Hf.
  - rewrite decide_False; [done|].
    intros Hc. apply findOne_keyed in Hc; [congruence|done..].
  - apply findOne_keyed in Hf; [|done..]. by rewrite decide_True.
Qed.

Lemma post_wishlist_recommend_valid now req st item O Hid :
  body req = Some item → item !! "hotelId" = Some Hid → truthy Hid = true →
  truthy_opt (item !! "name") = true →
  user_email req = Some O → truthy O = true →
  post_wishlist_recommend now req st
  = if decide (count_keyed "hotelId" O Hid (favoriteCollection st) = 0%nat) then
      match insertOne (item_to_store now O item) (favoriteCollection st) (next_pk st) with
      | Some (id, c, pk) => (respond 201 (InsertedId id), with_favorite st c pk)
      | None => (respond 500 (Message "Server error"), st)
      end
    else (respond 200 (Message "Already in wishlist"), st).
Proof.
  intros Hb HE HtE Hn HO HtO. unfold post_wishlist_recommend.
  rewrite Hb, HE, HO, Hn; simpl. rewrite HtE, HtO; simpl.
  unfold get. rewrite lookup_insert_ne, HE by done. simpl.
  destruct (findOne _ _) eqn:Hf.
  - rewrite decide_False; [done|].
    intros Hc. apply findOne_keyed in Hc; [congruence|done..].
  - apply findOne_keyed in Hf; [|done..]. by rewrite decide_True.
Qed.

(** C3, with the conditions it needs.  Two [POST /wishlist] requests in a
    row by the same caller [O] for the same item id [E] (a scalar the
    handler accepts, present in both bodies, whatever else the bodies
    carry), on a store that holds at most one item with key [(O, E)] and
    when the first request does not end in a store error: the second
    request is answered 409 "Item already added to wishlist", it changes
    nothing, and the store holds exactly one item with key [(O, E)].
    Without these conditions the claim fails on the sample stores. *)
Theorem add_item_twice_conflict now1 now2 req1 req2 st O E item1 item2 :
  caller now1 req1 = Some O → caller now2 req2 = Some O → truthy O = true →
  body req1 = Some item1 → body req2 = Some item2 →
  item1 !! "id" = Some E → item2 !! "id" = Some E → truthy E = true →
  (count_keyed "id" O E (favoriteCollection st) ≤ 1)%nat →
  status (serve POST_wishlist now1 req1 st).1 ≠ 500%nat →
  let st1 := (serve POST_wishlist now1 req1 st).2 in
  serve POST_wishlist now2 req2 st1
  = (respond 409 (Message "Item already added to wishlist"), st1)
  ∧ count_keyed "id" O E (favoriteCollection st1) = 1%nat.
Proof.
  intros Hc1 Hc2 HO Hb1 Hb2 H1 H2 HE Hcount.
  destruct (serve_caller POST_wishlist now1 req1 st O eq_refl Hc1) as (u1 & Hu1 & ->).
  simpl handler.
  rewrite (post_wishlist_valid now1 _ st item1 O E) by done.
  assert (∀ st1, count_keyed "id" O E (favoriteCollection st1) = 1%nat →
            serve POST_wishlist now2 req2 st1
            = (respond 409 (Message "Item already added to wishlist"), st1)) as Hsecond.
  { intros st1 Hst1.
    destruct (serve_caller POST_wishlist now2 req2 st1 O eq_refl Hc2) as (u2 & Hu2 & ->).
    simpl handler.
    rewrite (post_wishlist_valid now2 _ st1 item2 O E) by done.
    rewrite decide_False; [done | lia]. }
  case_decide as Hzero.
  - destruct (insertOne _ _ _) as [[[id c] pk]|] eqn:Hi; simpl; [|done].
    intros _.
    assert (count_keyed "id" O E c = 1%nat) as Hone.
    { rewrite (insertOne_count "id" O E _ _ _ _ _ _ ltac:(done) Hi), Hzero; [done|..].
      - by rewrite item_to_store_field.
      - apply item_to_store_email. }
    split; [by apply Hsecond | done].
  - simpl. intros _. assert (count_keyed "id" O E (favoriteCollection st) = 1%nat) by lia.
    split; [by apply Hsecond | done].
Qed.

(** C4, with the conditions it needs.  Two [POST /wishlist-recommend]
    requests in a row by the same caller [O] for the same hotel id [Hid] (a
    scalar the handler accepts, with a name in both bodies), on a store
    that holds at most one item with key [(O, Hid)] and when the first
    request does not end in a store error: the second request succeeds with
    200 "Already in wishlist", it changes nothing, and the store holds
    exactly one item with key [(O, Hid)].  Without these conditions the
    claim fails on the sample stores. *)
Theorem add_recommendation_twice_idempotent now1 now2 req1 req2 st O Hid item1 item2 :
  caller now1 req1 = Some O → caller now2 req2 = Some O → truthy O = true →
  body req1 = Some item1 → body req2 = Some item2 →
  item1 !! "hotelId" = Some Hid → item2 !! "hotelId" = Some Hid →
  truthy Hid = true →
  truthy_opt (item1 !! "name") = true → truthy_opt (item2 !! "name") = true →
  (count_keyed "hotelId" O Hid (favoriteCollection st) ≤ 1)%nat →
  status (serve POST_wishlist_recommend now1 req1 st).1 ≠ 500%nat →
  let st1 := (serve POST_wishlist_recommend now1 req1 st).2 in
  serve POST_wishlist_recommend now2 req2 st1
  = (respond 200 (Message "Already in wishlist"), st1)
  ∧ count_keyed "hotelId" O Hid (favoriteCollection st1) = 1%nat.
Proof.
  intros Hc1 Hc2 HO Hb1 Hb2 H1 H2 HE Hn1 Hn2 Hcount.
  destruct (serve_caller POST_wishlist_recommend now1 req1 st O eq_refl Hc1)
    as (u1 & Hu1 & ->).
  simpl handler.
  rewrite (post_wishlist_recommend_valid now1 _ st item1 O Hid) by done.
  assert (∀ st1, count_keyed "hotelId" O Hid (favoriteCollection st1) = 1%nat →
            serve POST_wishlist_recommend now2 req2 st1
            = (respond 200 (Message "Already in wishlist"), st1)) as Hsecond.
  { intros st1 Hst1.
    destruct (serve_caller POST_wishlist_recommend now2 req2 st1 O eq_refl Hc2)
      as (u2 & Hu2 & ->).
    simpl handler.
    rewrite (post_wishlist_recommend_valid now2 _ st1 item2 O Hid) by done.
    rewrite decide_False; [done | lia]. }
  case_decide as Hzero.
  - destruct (insertOne _ _ _) as [[[id c] pk]|] eqn:Hi; simpl; [|done].
    intros _.
    assert (count_keyed "hotelId" O Hid c = 1%nat) as Hone.
    { rewrite (insertOne_count "hotelId" O Hid _ _ _ _ _ _ ltac:(done) Hi), Hzero; [done|..].
      - by rewrite item_to_store_field.
      - apply item_to_store_email. }
    split; [by apply Hsecond | done].
  - simpl. intros _.
    assert (count_keyed "hotelId" O Hid (favoriteCollection st) = 1%nat) by lia.
    split; [by apply Hsecond | done].
Qed.

(** ** Ownership of what is added *)

Lemma insert_after_delete (k : string) (v : value) (a b : doc) :
  delete k a = delete k b → <[k := v]> a = <[k := v]> b.
Proof.
  intros Hab. by rewrite <- (insert_delete_eq a), <- (insert_delete_eq b), Hab.
Qed.

Lemma lookup_after_delete (k k' : string) (a b : doc) :
  k' ≠ k → delete k a = delete k b → a !! k' = b !! k'.
Proof.
  intros Hk Hab.
  by rewrite <- (lookup_delete_ne a k k'), <- (lookup_delete_ne b k k'), Hab.
Qed.

Lemma insertOne_appends_owned now O item c pk id c' pk' :
  insertOne (item_to_store now O item) c pk = Some (id, c', pk') →
  ∃ d, c' = c ++ [d] ∧ owned_by O d.
Proof.
  intros Hi. destruct (insertOne_stored _ _ _ _ _ _ Hi) as (d & -> & _ & Hd).
  exists d. split; [done|]. unfold owned_by.
  rewrite Hd by done. apply item_to_store_email.
Qed.

Lemma post_wishlist_owner now req st O :
  user_email req = Some O →
  let st' := (post_wishlist now req st).2 in
  favoriteCollection st' = favoriteCollection st
  ∨ ∃ d, favoriteCollection st' = favoriteCollection st ++ [d] ∧ owned_by O d.
Proof.
  intros HO. unfold post_wishlist. rewrite HO; simpl.
  destruct (body req) as [item|]; [|by left].
  destruct (truthy_opt (item !! "id")); simpl; [|by left].
  destruct (truthy O); simpl; [|by left].
  destruct (findOne _ _); [by left|].
  fold (item_to_store now O item).
  destruct (insertOne _ _ _) as [[[id c] pk]|] eqn:Hi; [|by left].
  right. simpl. by eapply insertOne_appends_owned.
Qed.

Lemma post_wishlist_recommend_owner now req st O :
  user_email req = Some O →
  let st' := (post_wishlist_recommend now req st).2 in
  favoriteCollection st' = favoriteCollection st
  ∨ ∃ d, favoriteCollection st' = favoriteCollection st ++ [d] ∧ owned_by O d.
Proof.
  intros HO. unfold post_wishlist_recommend. rewrite HO; simpl.
  destruct (body req) as [item|]; [|by left].
  destruct (negb (truthy_opt (item !! "hotelId")) || negb (truthy_opt (item !! "name")));
    simpl; [by left|].
  destruct (truthy O); simpl; [|by left].
  destruct (findOne _ _); [by left|].
  fold (item_to_store now O item).
  destruct (insertOne _ _ _) as [[[id c] pk]|] eqn:Hi; [|by left].
  right. simpl. by eapply insertOne_appends_owned.
Qed.

(** The two add handlers read the body only through the body with its
    [email] overwritten, and [req.user] only through its [email]. *)
Lemma post_wishlist_body_email now req req' st :
  user_email req' = user_email req →
  delete "email" <$> body req' = delete "email" <$> body req →
  post_wishlist now req' st = post_wishlist now req st.
Proof.
  intros Hu Hb. unfold post_wishlist. rewrite Hu.
  destruct (body req') as [item'|], (body req) as [item|]; simplify_eq/=; [|done].
  rename select (delete _ _ = delete _ _) into Hd.
  rewrite (lookup_after_delete "email" "id" item' item) by done.
  by rewrite (insert_after_delete "email" _ item' item).
Qed.

Lemma post_wishlist_recommend_body_email now req req' st :
  user_email req' = user_email req →
  delete "email" <$> body req' = delete "email" <$> body req →
  post_wishlist_recommend now req' st = post_wishlist_recommend now req st.
Proof.
  intros Hu Hb. unfold post_wishlist_recommend. rewrite Hu.
  destruct (body req') as [item'|], (body req) as [item|]; simplify_eq/=; [|done].
  rename select (delete _ _ = delete _ _) into Hd.
  rewrite (lookup_after_delete "email" "hotelId" item' item) by done.
  rewrite (lookup_after_delete "email" "name" item' item) by done.
  by rewrite (insert_after_delete "email" _ item' item).
Qed.

(** C9.  On [POST /wishlist] and [POST /wishlist-recommend], for a caller
    whose token verifies to the email [O]: either nothing is stored, or
    exactly one item is appended and its [email] is [O].  The email of the
    body plays no part: two requests of the same caller whose bodies differ
    at most in their [email] field get the same answer and leave the same
    store. *)
Theorem add_owner_is_token_email r now req st O :
  r = POST_wishlist ∨ r = POST_wishlist_recommend →
  caller now req = Some O →
  let st' := (serve r now req st).2 in
  (favoriteCollection st' = favoriteCollection st
   ∨ ∃ d, favoriteCollection st' = favoriteCollection st ++ [d] ∧ owned_by O d)
  ∧ (∀ req', caller now req' = Some O →
             delete "email" <$> body req' = delete "email" <$> body req →
             serve r now req' st = serve r now req st).
Proof.
  intros Hr Hc.
  assert (behind_verifyJWT r = true) as Hb by (by destruct Hr as [-> | ->]).
  destruct (serve_caller r now req st O Hb Hc) as (u & Hu & Hs).
  split.
  - rewrite Hs. destruct Hr as [-> | ->]; simpl handler.
    + by apply post_wishlist_owner.
    + by apply post_wishlist_recommend_owner.
  - intros req' Hc' Hbody.
    destruct (serve_caller r now req' st O Hb Hc') as (u' & Hu' & ->).
    rewrite Hs. destruct Hr as [-> | ->]; simpl handler.
    + apply post_wishlist_body_email; [|done].
      rewrite !user_email_set_user. congruence.
    + apply post_wishlist_recommend_body_email; [|done].
      rewrite !user_email_set_user. congruence.
Qed.

(** ** Users *)

Lemma has_email_matches e d :
  matches [("email", VStr e)] d = has_email e d.
Proof.
  apply eq_true_iff_eq. rewrite matches_single by done.
  unfold has_email. by rewrite bool_decide_eq_true.
Qed.

Lemma count_email_zero e c :
  count_email e c = 0%nat ↔ Forall (λ d, matches [("email", VStr e)] d = false) c.
Proof.
  unfold count_email. induction c as [|d c IH].
  - split; [constructor | done].
  - rewrite Forall_cons, has_email_matches. cbn [List.filter].
    destruct (has_email e d); simpl; [split; [done | by intros [? _]]|].
    rewrite IH. tauto.
Qed.

Lemma count_email_app e c1 c2 :
  count_email e (c1 ++ c2) = (count_email e c1 + count_email e c2)%nat.
Proof. unfold count_email. by rewrite List.filter_app, length_app. Qed.



Lemma apply_set_union setd d d' : apply_set setd d = Some d' → d' = setd ∪ d.
Proof.
  unfold apply_set. destruct (setd !! "_id"); [case_bool_decide|]; congruence.
Qed.

Lemma profile_set_email e now p : profile_set e now p !! "email" = Some (VStr e).
Proof. unfold profile_set. by rewrite lookup_insert_ne, lookup_insert_eq. Qed.

Lemma profile_set_updatedAt e now p :
  profile_set e now p !! "updatedAt" = Some (VDate now).
Proof. unfold profile_set. by rewrite lookup_insert_eq. Qed.

Lemma profile_set_createdAt e now p : profile_set e now p !! "createdAt" = None.
Proof.
  unfold profile_set. by rewrite !lookup_insert_ne, lookup_delete_eq.
Qed.


(** [POST /users] on a body with a non-empty string email. *)
Lemma post_users_valid now req st p e :
  body req = Some p → p !! "email" = Some (VStr e) → e ≠ "" →
  post_users now req st
  = let email := toLowerCase e in
    let token := jwt_sign {["email" := VStr email]} "365d" now in
    match updateOne_upsert [("email", VStr email)] (profile_set email now p)
            {["createdAt" := VDate now]} (usersCollection st) (next_pk st) with
    | WriteError =>
        (respond 500 (Message "Server error creating/updating user"), st)
    | Modified c =>
        ({| status := 200; json := UpsertedId VNull;
            cookie := SetCookie "token" token cookieOptions |},
         with_users st c (next_pk st))
    | Upserted id c pk =>
        ({| status := 200;
            json := UpsertedId (if truthy id then id else VNull);
            cookie := SetCookie "token" token cookieOptions |},
         with_users st c pk)
    end.
Proof.
  intros Hb He Hne. unfold post_users. rewrite Hb; simpl. rewrite He.
  by rewrite bool_decide_false.
Qed.




(** ** The store invariant *)

Lemma existsb_has_id v c : existsb (has_id v) c = false ↔ Some v ∉ ids c.
Proof.
  unfold ids. induction c as [|d c IH]; simpl.
  - split; [intros _; apply not_elem_of_nil | done].
  - rewrite orb_false_iff, not_elem_of_cons, IH. unfold has_id.
    rewrite bool_decide_eq_false. split; intros [? ?]; split; auto.
Qed.

Lemma ids_app c1 c2 : ids (c1 ++ c2) = ids c1 ++ ids c2.
Proof. unfold ids. apply fmap_app. Qed.

Lemma pk_below_mono pk pk' c : (pk ≤ pk')%N → pk_below pk c → pk_below pk' c.
Proof. intros Hle Hc o Ho. specialize (Hc o Ho). lia. Qed.

(** The keys of a collection after a successful [insertOne]. *)
Lemma insertOne_ids d c pk id c' pk' :
  insertOne d c pk = Some (id, c', pk') →
  ids c' = ids c ++ [Some id] ∧ (Some id ∉ ids c)
  ∧ ((id = VOid pk ∧ pk' = (pk + 1)%N) ∨ (d !! "_id" = Some id ∧ pk' = pk)).
Proof.
  intros Hi. destruct (insertOne_stored _ _ _ _ _ _ Hi) as (d' & -> & Hid & _).
  rewrite ids_app. unfold ids at 2; simpl. rewrite Hid.
  split; [done|]. revert Hi. unfold insertOne, assign_pk.
  destruct (d !! "_id") as [v|] eqn:Hd; [destruct v|];
    match goal with
    | |- context [existsb ?f c] => destruct (existsb f c) eqn:He
    end; intros Hi; simplify_eq;
    (split; [by apply existsb_has_id | auto]).
Qed.

Lemma insertOne_invariant d c pk id c' pk' :
  (∀ v, d !! "_id" = Some v → is_json v = true) →
  NoDup (ids c) → pk_below pk c →
  insertOne d c pk = Some (id, c', pk') →
  NoDup (ids c') ∧ pk_below pk' c' ∧ (pk ≤ pk')%N.
Proof.
  intros Hjson Hnd Hbelow Hi.
  destruct (insertOne_ids _ _ _ _ _ _ Hi) as (Hids & Hfresh & Hid).
  unfold pk_below. rewrite Hids.
  split; [|split].
  - apply NoDup_app. split; [done|]. split; [|apply NoDup_singleton].
    intros x Hx Hx'. apply list_elem_of_singleton in Hx'. by subst.
  - intros o Ho. apply elem_of_app in Ho as [Ho | Ho].
    + specialize (Hbelow o Ho). destruct Hid as [[_ ->] | [_ ->]]; lia.
    + apply list_elem_of_singleton in Ho. simplify_eq.
      destruct Hid as [[Heq ->] | [Hd _]]; [simplify_eq; lia|].
      by specialize (Hjson _ Hd).
  - destruct Hid as [[_ ->] | [_ ->]]; lia.
Qed.

Lemma apply_set_id setd d d' :
  apply_set setd d = Some d' → d' !! "_id" = d !! "_id".
Proof.
  unfold apply_set. destruct (setd !! "_id") as [v|] eqn:Hs.
  - case_bool_decide as Hd; [|done]. intros ?; simplify_eq.
    by erewrite lookup_union_Some_l.
  - intros ?; simplify_eq. by rewrite lookup_union_r.
Qed.

Lemma update_first_ids q setd c c' :
  update_first q setd c = Some (Some c') → ids c' = ids c.
Proof.
  revert c'. induction c as [|d c IH]; intros c'; simpl; [done|].
  destruct (matches q d).
  - destruct (apply_set setd d) as [d'|] eqn:Hs; [|done].
    intros ?; simplify_eq. unfold ids; simpl.
    by rewrite (apply_set_id _ _ _ Hs).
  - destruct (update_first q setd c) as [[r|]|]; try done.
    intros ?; simplify_eq. unfold ids; simpl. f_equal. by apply IH.
Qed.

Lemma deleteOne_ids q c :
  (ids (deleteOne q c).2) `sublist_of` (ids c).
Proof.
  destruct (deleteOne_spec q c) as [[-> _] | (l1 & d & l2 & -> & _ & _ & ->)];
    simpl; [done|].
  rewrite !ids_app. apply sublist_app; [done|]. by apply sublist_cons.
Qed.

Lemma updateOne_upsert_invariant q setd soi c pk :
  (∀ v, (soi ∪ (setd ∪ list_to_map q)) !! "_id" = Some v → is_json v = true) →
  NoDup (ids c) → pk_below pk c →
  match updateOne_upsert q setd soi c pk with
  | WriteError => True
  | Modified c' => NoDup (ids c') ∧ pk_below pk c'
  | Upserted _ c' pk' => NoDup (ids c') ∧ pk_below pk' c' ∧ (pk ≤ pk')%N
  end.
Proof.
  intros Hjson Hnd Hbelow. unfold updateOne_upsert.
  destruct (update_first q setd c) as [[c'|]|] eqn:Hu; [|done|].
  - unfold pk_below. by rewrite (update_first_ids _ _ _ _ Hu).
  - set (d := soi ∪ (setd ∪ list_to_map q)) in *.
    destruct (d !! "_id") as [v|] eqn:Hd.
    + destruct (existsb (has_id v) c) eqn:He; [done|].
      apply existsb_has_id in He. unfold pk_below. rewrite ids_app. cbn [ids fmap list_fmap].
      rewrite Hd. split; [|split; [|lia]].
      * apply NoDup_app. split; [done|]. split; [|apply NoDup_singleton].
        intros x Hx Hx'. apply list_elem_of_singleton in Hx'. by subst.
      * intros o Ho. apply elem_of_app in Ho as [Ho | Ho]; [by apply Hbelow|].
        apply list_elem_of_singleton in Ho. simplify_eq.
        by specialize (Hjson _ eq_refl).
    + destruct (existsb (has_id (VOid pk)) c) eqn:He; [done|].
      apply existsb_has_id in He. unfold pk_below. rewrite ids_app. cbn [ids fmap list_fmap].
      rewrite lookup_insert_eq. split; [|split; [|lia]].
      * apply NoDup_app. split; [done|]. split; [|apply NoDup_singleton].
        intros x Hx Hx'. apply list_elem_of_singleton in Hx'. by subst.
      * intros o Ho. apply elem_of_app in Ho as [Ho | Ho].
        -- specialize (Hbelow o Ho). lia.
        -- apply list_elem_of_singleton in Ho. simplify_eq. lia.
Qed.

Lemma item_to_store_json now O item v :
  json_doc item → item_to_store now O item !! "_id" = Some v → is_json v = true.
Proof.
  intros Hj. unfold item_to_store. rewrite !lookup_insert_ne by done. apply Hj.
Qed.

Lemma with_favorite_ok st c pk :
  store_ok st → NoDup (ids c) → pk_below pk c → (next_pk st ≤ pk)%N →
  store_ok (with_favorite st c pk).
Proof.
  intros [? ? ? ?] ? ? ?. split; simpl; try done.
  by eapply pk_below_mono.
Qed.

Lemma with_users_ok st c pk :
  store_ok st → NoDup (ids c) → pk_below pk c → (next_pk st ≤ pk)%N →
  store_ok (with_users st c pk).
Proof.
  intros [? ? ? ?] ? ? ?. split; simpl; try done.
  by eapply pk_below_mono.
Qed.

Lemma post_wishlist_ok now req st :
  json_request req → store_ok st → store_ok (post_wishlist now req st).2.
Proof.
  intros Hj Hst. unfold post_wishlist.
  destruct (body req) as [item|] eqn:Hb; [|done].
  destruct (negb (truthy_opt (item !! "id"))); [done|].
  destruct (negb (truthy_opt (user_email req))); [done|].
  destruct (findOne _ _); [done|].
  fold (item_to_store now (default VNull (user_email req)) item).
  destruct (insertOne _ _ _) as [[[id c] pk]|] eqn:Hi; [|done]. simpl.
  destruct (insertOne_invariant _ _ _ _ _ _
              (λ v, item_to_store_json now _ item v (Hj _ Hb))
              (favorite_ids _ Hst) (favorite_below _ Hst) Hi) as (? & ? & ?).
  by apply with_favorite_ok.
Qed.

Lemma post_wishlist_recommend_ok now req st :
  json_request req → store_ok st → store_ok (post_wishlist_recommend now req st).2.
Proof.
  intros Hj Hst. unfold post_wishlist_recommend.
  destruct (body req) as [item|] eqn:Hb; [|done].
  destruct (negb (truthy_opt (item !! "hotelId")) || negb (truthy_opt (item !! "name")));
    [done|].
  destruct (negb (truthy_opt (user_email req))); [done|].
  destruct (findOne _ _); [done|].
  fold (item_to_store now (default VNull (user_email req)) item).
  destruct (insertOne _ _ _) as [[[id c] pk]|] eqn:Hi; [|done]. simpl.
  destruct (insertOne_invariant _ _ _ _ _ _
              (λ v, item_to_store_json now _ item v (Hj _ Hb))
              (favorite_ids _ Hst) (favorite_below _ Hst) Hi) as (? & ? & ?).
  by apply with_favorite_ok.
Qed.

Lemma delete_wishlist_ok now req st :
  store_ok st → store_ok (delete_wishlist now req st).2.
Proof.
  intros Hst. unfold delete_wishlist.
  destruct (negb (ObjectId_isValid _)); [done|].
  destruct (negb (truthy_opt (user_email req))); [done|].
  destruct (ObjectId_new _) as [oid|]; [|done].
  pose proof (deleteOne_ids [("_id", VOid oid); ("email", default VNull (user_email req))]
                (favoriteCollection st)) as Hsub.
  destruct (deleteOne _ _) as [n c]. simpl in Hsub.
  destruct (n =? 0)%nat; simpl; [done|].
  apply with_favorite_ok; [done| | |lia].
  - eapply sublist_NoDup; [apply Hst | exact Hsub].
  - intros o Ho. apply (favorite_below _ Hst).
    by eapply elem_of_sublist.
Qed.

Lemma profile_set_json e now p v :
  json_doc p →
  ({["createdAt" := VDate now]} ∪ (profile_set e now p ∪ list_to_map [("email", VStr e)]))
    !! "_id" = Some v →
  is_json v = true.
Proof.
  intros Hj. rewrite lookup_union_r by done.
  unfold profile_set.
  destruct (p !! "_id") as [w|] eqn:Hp.
  - erewrite lookup_union_Some_l;
      [|by rewrite !lookup_insert_ne, lookup_delete_ne by done].
    intros ?; simplify_eq. by apply (Hj "_id").
  - rewrite lookup_union_r
      by (by rewrite !lookup_insert_ne, lookup_delete_ne by done).
    done.
Qed.

Lemma post_users_ok now req st :
  json_request req → store_ok st → store_ok (post_users now req st).2.
Proof.
  intros Hj Hst. unfold post_users.
  destruct (body req) as [p|] eqn:Hb; simpl; [|done].
  destruct (p !! "email") as [[| | |e| |]|]; try done;
    try (match goal with |- context [if ?b then _ else _] => by destruct b end).
  case_bool_decide; [done|].
  pose proof (updateOne_upsert_invariant [("email", VStr (toLowerCase e))]
                (profile_set (toLowerCase e) now p) {["createdAt" := VDate now]}
                (usersCollection st) (next_pk st)
                (λ v, profile_set_json _ _ _ v (Hj _ Hb))
                (users_ids _ Hst) (users_below _ Hst)) as Hu.
  fold (profile_set (toLowerCase e) now p).
  destruct (updateOne_upsert _ _ _ _ _) as [|c|id c pk]; [done| |]; simpl.
  - destruct Hu. by apply with_users_ok.
  - destruct Hu as (? & ? & ?). by apply with_users_ok.
Qed.

Lemma post_jwt_state now req st : (post_jwt now req st).2 = st.
Proof.
  unfold post_jwt. destruct (body req) as [b|]; [|done].
  destruct (b !! "email") as [[| | |e| |]|]; try done;
    try (match goal with |- context [if ?b then _ else _] => by destruct b end).
  case_bool_decide; [done|]. by destruct (findOne _ _).
Qed.

Lemma handler_ok r now req st :
  json_request req → store_ok st → store_ok (handler r now req st).2.
Proof.
  intros Hj Hst. destruct r; simpl; try done.
  - by apply post_users_ok.
  - by rewrite post_jwt_state.
  - by apply post_wishlist_ok.
  - by apply post_wishlist_recommend_ok.
  - unfold get_wishlist. by destruct (negb (truthy_opt (user_email req))).
  - by apply delete_wishlist_ok.
Qed.

Lemma serve_ok r now req st :
  json_request req → store_ok st → store_ok (serve r now req st).2.
Proof.
  intros Hj Hst. unfold serve.
  destruct (behind_verifyJWT r); [|by apply handler_ok].
  unfold guarded.
  destruct (verifyJWT_cases now req)
    as [[-> _] | [[-> _] | (token & u & -> & _)]]; try done.
  by apply handler_ok.
Qed.

(** Every state the server reaches keeps the primary keys unique and
    older than the key source. *)
Lemma reachable_store_ok st : reachable st → store_ok st.
Proof.
  induction 1 as [|st r now req _ IH Hj].
  - split; simpl; try apply NoDup_nil_2; intros o Ho; by apply elem_of_nil in Ho.
  - by apply serve_ok.
Qed.

(** On such a state a body without [_id] is never refused by the store. *)
Lemma insertOne_fresh d c pk :
  d !! "_id" = None → pk_below pk c → is_Some (insertOne d c pk).
Proof.
  intros Hd Hbelow. unfold insertOne, assign_pk. rewrite Hd.
  destruct (existsb (has_id (VOid pk)) c) eqn:He; [|eauto].
  apply not_false_iff_true in He. destruct He. apply existsb_has_id.
  intros Ho. specialize (Hbelow pk Ho). lia.
Qed.

Lemma post_wishlist_no_store_error now req st item :
  store_ok st → body req = Some item → item !! "_id" = None →
  status (post_wishlist now req st).1 ≠ 500%nat.
Proof.
  intros Hst Hb Hid. unfold post_wishlist. rewrite Hb.
  destruct (negb (truthy_opt (item !! "id"))); [done|].
  destruct (negb (truthy_opt (user_email req))); [done|].
  destruct (findOne _ _); [done|].
  destruct (insertOne_fresh
              (<["createdAt" := VDate now]>
                 (<["email" := default VNull (user_email req)]> item))
              (favoriteCollection st) (next_pk st)) as [[[id c] pk] ->]; [|apply Hst|done].
  by rewrite !lookup_insert_ne.
Qed.

Lemma post_wishlist_recommend_no_store_error now req st item :
  store_ok st → body req = Some item → item !! "_id" = None →
  status (post_wishlist_recommend now req st).1 ≠ 500%nat.
Proof.
  intros Hst Hb Hid. unfold post_wishlist_recommend. rewrite Hb.
  destruct (negb (truthy_opt (item !! "hotelId")) || negb (truthy_opt (item !! "name")));
    [done|].
  destruct (negb (truthy_opt (user_email req))); [done|].
  destruct (findOne _ _); [done|].
  destruct (insertOne_fresh
              (<["createdAt" := VDate now]>
                 (<["email" := default VNull (user_email req)]> item))
              (favoriteCollection st) (next_pk st)) as [[[id c] pk] ->]; [|apply Hst|done].
  by rewrite !lookup_insert_ne.
Qed.

(** ** Deduplication keys *)




(** ** The previous revision, for comparison *)

(** It lists the whole collection, whoever asks. *)
Lemma previous_get_wishlist_unscoped now req st :
  Previous.get_wishlist now req st
  = (Some (respond 200 (Items (favoriteCollection st))), st).
Proof.
  unfold Previous.get_wishlist, find. do 4 f_equal.
  induction (favoriteCollection st) as [|d c IH]; simpl; [done|]. by rewrite IH.
Qed.

(** It deletes by identifier alone: the owner of the item plays no part. *)
Lemma previous_delete_ignores_owner now req st id oid l1 d l2 :
  params req !! "id" = Some id → ObjectId_new id = Some oid →
  favoriteCollection st = l1 ++ d :: l2 →
  Forall (λ d', ¬ has_oid oid d') l1 → has_oid oid d →
  Previous.delete_wishlist now req st
  = (Some (respond 200 (DeleteResult 1)), with_favorite st (l1 ++ l2) (next_pk st)).
Proof.
  intros Hid Hoid Hc Hl1 Hd. unfold Previous.delete_wishlist.
  rewrite Hid; simpl. rewrite Hoid, Hc.
  rewrite deleteOne_first; [done| |by apply matches_single].
  eapply Forall_impl; [exact Hl1|]. intros x Hx.
  apply not_true_is_false. intros Hm. by apply matches_single in Hm.
Qed.

(** It has no guard on the identifier: for one that is not a valid ObjectId
    the constructor throws before the store is called. *)
Lemma previous_delete_unguarded now req st id :
  params req !! "id" = Some id → ObjectId_isValid id = false →
  Previous.delete_wishlist now req st = (None, st).
Proof.
  intros Hid Hbad. unfold Previous.delete_wishlist. rewrite Hid; simpl.
  destruct (ObjectId_new id) eqn:Hnew; [|done].
  assert (ObjectId_isValid id = true) by (apply ObjectId_isValid_new; eauto).
  congruence.
Qed.

(** It stores the owner the body names. *)
Lemma previous_post_wishlist_owner now req st item r st' :
  body req = Some item →
  Previous.post_wishlist now req st = (Some r, st') → status r = 200%nat →
  ∃ d, favoriteCollection st' = favoriteCollection st ++ [d]
       ∧ d !! "email" = item !! "email".
Proof.
  intros Hb. unfold Previous.post_wishlist. rewrite Hb.
  destruct (_ || _); [intros; by simplify_eq|].
  destruct (findOne _ _); [intros; by simplify_eq|].
  destruct (insertOne _ _ _) as [[[id c] pk]|] eqn:Hi; [|intros; by simplify_eq].
  intros ? _; simplify_eq. simpl.
  destruct (insertOne_stored _ _ _ _ _ _ Hi) as (d & -> & _ & Hd).
  exists d. split; [done|]. by apply Hd.
Qed.

(** Its middleware reads the cookie only. *)
Lemma previous_verifyJWT_cookie_only now req :
  cookies req !! "token" = None →
  Previous.verifyJWT now req
  = inl (respond 401 (Message "Unauthorized: No token provided")).
Proof. intros Hc. unfold Previous.verifyJWT. by rewrite Hc. Qed.

(** Its [POST /users] leaves an existing record as it is. *)
Lemma previous_post_users_existing now req st u e :
  body req = Some u → u !! "email" = Some (VStr e) →
  (0 < count_email e (usersCollection st))%nat →
  Previous.post_users now req st
  = (Some (respond 200 (Message "User already exists")), st).
Proof.
  intros Hb He Hcount. unfold Previous.post_users. rewrite Hb.
  unfold get. rewrite He; simpl.
  destruct (findOne _ _) eqn:Hf; [done|].
  unfold findOne in Hf.
  rewrite (find_ext_bool _ (has_email e)) in Hf by apply has_email_matches.
  apply find_none_length in Hf. unfold count_email in Hcount. lia.
Qed.

End Properties.

(** * The properties on the sample environment *)

(** The round trip of one caller: save, save again, list, remove, list. *)
Example wishlist_round_trip :
  let alice_adds := Sample.as_user "alice@x.com" (Some (Sample.hotel "h1")) "" in
  let alice_lists := Sample.as_user "alice@x.com" None "" in
  let alice_removes := Sample.as_user "alice@x.com" None Sample.oid0 in
  let r1 := Sample.serve POST_wishlist 1 alice_adds empty_db in
  let r2 := Sample.serve POST_wishlist 2 alice_adds r1.2 in
  let r3 := Sample.serve GET_wishlist 3 alice_lists r2.2 in
  let r4 := Sample.serve DELETE_wishlist 4 alice_removes r3.2 in
  let r5 := Sample.serve GET_wishlist 5 alice_lists r4.2 in
  r1.1 = respond 201 (InsertedId (VOid 0))
  ∧ status r2.1 = 409%nat
  ∧ (∃ d, json r3.1 = Items [d] ∧ d !! "id" = Some (VStr "h1")
          ∧ d !! "email" = Some Sample.alice)
  ∧ r4.1 = respond 200 (DeletedCount 1)
  ∧ r5.1 = respond 200 (Items []).
Proof.
  cbv zeta. split; [by vm_compute|]. split; [by vm_compute|].
  split; [eexists; split; [by vm_compute|]; split; by vm_compute|].
  split; by vm_compute.
Qed.

(** Without a cookie and without a header the answer is 401, with a token
    that does not verify it is 403. *)
Example wishlist_needs_session :
  status (Sample.serve GET_wishlist 1 Sample.anonymous empty_db).1 = 401%nat
  ∧ status (Sample.serve GET_wishlist 1
              {| cookies := {["token" := "tampered"]}; headers := ∅; params := ∅;
                 url_query := ∅; body := None; user := None |} empty_db).1 = 403%nat.
Proof. split; by vm_compute. Qed.

Lemma extract_token_sources_witness :
  let req :=
    {| cookies := {["token" := "c"]}; headers := {["authorization" := "Bearer h"]};
       params := ∅; url_query := ∅; body := None; user := None |} in
  cookies req !! "token" = Some "c" ∧ extract_token req = Some "c".
Proof.
  split; [reflexivity|].
  apply (proj1 (extract_token_sources _) "c"); [reflexivity | done].
Defined.

Lemma auth_guard_outcomes_witness :
  behind_verifyJWT GET_wishlist = true
  ∧ extract_token Sample.anonymous = None
  ∧ @serve Sample.env GET_wishlist 0 Sample.anonymous empty_db
    = (respond 401 (Message "Unauthorized: No token provided"), empty_db).
Proof.
  split; [reflexivity|]. split; [reflexivity|].
  apply (proj1 (auth_guard_outcomes (env := Sample.env) GET_wishlist 0
                  Sample.anonymous empty_db eq_refl)).
  left; reflexivity.
Defined.

Lemma list_items_owner_scoped_witness :
  let req := Sample.as_user "alice@x.com" None "" in
  let st := Sample.two_owners in
  let items := filter (owned_by Sample.alice) (favoriteCollection st) in
  @caller Sample.env 3 req = Some Sample.alice
  ∧ truthy Sample.alice = true
  ∧ @serve Sample.env GET_wishlist 3 req st = (respond 200 (Items items), st)
  ∧ Forall (owned_by Sample.alice) items
  ∧ items `sublist_of` favoriteCollection st
  ∧ (∀ d, d ∈ items ↔ d ∈ favoriteCollection st ∧ owned_by Sample.alice d).
Proof.
  intros req st items.
  split; [vm_compute; reflexivity|]. split; [reflexivity|].
  apply (list_items_owner_scoped (env := Sample.env) 3 req st Sample.alice);
    vm_compute; reflexivity.
Defined.

Lemma remove_invalid_id_rejected_witness :
  let req := Sample.as_user "alice@x.com" None "not-an-id" in
  @verifyJWT Sample.env 5 req = inr (set_user req {["email" := Sample.alice]})
  ∧ params req !! "id" = Some "not-an-id"
  ∧ ObjectId_isValid "not-an-id" = false
  ∧ @serve Sample.env DELETE_wishlist 5 req Sample.two_owners
    = (respond 400 (Message "Invalid id"), Sample.two_owners).
Proof.
  intros req.
  assert (@verifyJWT Sample.env 5 req
          = inr (set_user req {["email" := Sample.alice]})) as Hv
    by (vm_compute; reflexivity).
  assert (params req !! "id" = Some "not-an-id") as Hid by reflexivity.
  assert (ObjectId_isValid "not-an-id" = false) as Hbad by reflexivity.
  split; [exact Hv|]. split; [exact Hid|]. split; [exact Hbad|].
  exact (proj1 (remove_invalid_id_rejected (env := Sample.env) 5 req _
                  Sample.two_owners "not-an-id" Hv Hid Hbad)).
Defined.

Lemma remove_not_owned_not_found_witness :
  let req := Sample.as_user "alice@x.com" None Sample.oid1 in
  let st := Sample.two_owners in
  @caller Sample.env 5 req = Some Sample.alice
  ∧ truthy Sample.alice = true
  ∧ params req !! "id" = Some Sample.oid1
  ∧ ObjectId_new Sample.oid1 = Some 1%N
  ∧ (∃ d, d ∈ favoriteCollection st ∧ has_oid 1 d ∧ owned_by Sample.bob d)
  ∧ (∀ d, d ∈ favoriteCollection st → has_oid 1 d → ¬ owned_by Sample.alice d)
  ∧ @serve Sample.env DELETE_wishlist 5 req st
    = (respond 404 (Message "Not found or not authorized to delete"), st).
Proof.
  intros req st.
  assert (∀ d, d ∈ favoriteCollection st → has_oid 1 d → ¬ owned_by Sample.alice d)
    as Hforeign.
  { apply (proj1 (Forall_forall
               (λ d : doc, d !! "_id" = Some (VOid 1)
                           → ¬ d !! "email" = Some Sample.alice) _)).
    apply (bool_decide_unpack _). vm_compute. exact I. }
  split; [vm_compute; reflexivity|]. split; [reflexivity|].
  split; [reflexivity|]. split; [vm_compute; reflexivity|].
  split.
  { apply (proj1 (Exists_exists
               (λ d : doc, d !! "_id" = Some (VOid 1)
                           ∧ d !! "email" = Some Sample.bob) _)).
    apply (bool_decide_unpack _). vm_compute. exact I. }
  split; [exact Hforeign|].
  apply (remove_not_owned_not_found (env := Sample.env) 5 req st Sample.alice
           Sample.oid1 1%N); try exact Hforeign; vm_compute; reflexivity.
Defined.

Lemma add_item_twice_conflict_witness :
  let req := Sample.as_user "alice@x.com" (Some (Sample.hotel "h1")) "" in
  let st := empty_db in
  let st1 := (@serve Sample.env POST_wishlist 1 req st).2 in
  @caller Sample.env 1 req = Some Sample.alice
  ∧ @caller Sample.env 2 req = Some Sample.alice
  ∧ (count_keyed "id" Sample.alice (VStr "h1") (favoriteCollection st) ≤ 1)%nat
  ∧ status (@serve Sample.env POST_wishlist 1 req st).1 ≠ 500%nat
  ∧ @serve Sample.env POST_wishlist 2 req st1
    = (respond 409 (Message "Item already added to wishlist"), st1)
  ∧ count_keyed "id" Sample.alice (VStr "h1") (favoriteCollection st1) = 1%nat.
Proof.
  intros req st st1.
  assert (status (@serve Sample.env POST_wishlist 1 req st).1 ≠ 500%nat) as Hok
    by (vm_compute; lia).
  split; [vm_compute; reflexivity|]. split; [vm_compute; reflexivity|].
  split; [vm_compute; lia|]. split; [exact Hok|].
  apply (add_item_twice_conflict (env := Sample.env) 1 2 req req st Sample.alice
           (VStr "h1") (Sample.hotel "h1") (Sample.hotel "h1"));
    try exact Hok; try (vm_compute; reflexivity); vm_compute; lia.
Defined.

Lemma add_recommendation_twice_idempotent_witness :
  let req := Sample.as_user "alice@x.com" (Some (Sample.recommendation "H7")) "" in
  let st := Sample.two_owners in
  let st1 := (@serve Sample.env POST_wishlist_recommend 3 req st).2 in
  @caller Sample.env 3 req = Some Sample.alice
  ∧ @caller Sample.env 4 req = Some Sample.alice
  ∧ (count_keyed "hotelId" Sample.alice (VStr "H7") (favoriteCollection st) ≤ 1)%nat
  ∧ status (@serve Sample.env POST_wishlist_recommend 3 req st).1 ≠ 500%nat
  ∧ @serve Sample.env POST_wishlist_recommend 4 req st1
    = (respond 200 (Message "Already in wishlist"), st1)
  ∧ count_keyed "hotelId" Sample.alice (VStr "H7") (favoriteCollection st1) = 1%nat.
Proof.
  intros req st st1.
  assert (status (@serve Sample.env POST_wishlist_recommend 3 req st).1 ≠ 500%nat)
    as Hok by (vm_compute; lia).
  split; [vm_compute; reflexivity|]. split; [vm_compute; reflexivity|].
  split; [vm_compute; lia|]. split; [exact Hok|].
  apply (add_recommendation_twice_idempotent (env := Sample.env) 3 4 req req st
           Sample.alice (VStr "H7") (Sample.recommendation "H7")
           (Sample.recommendation "H7"));
    try exact Hok; try (vm_compute; reflexivity); vm_compute; lia.
Defined.

Lemma add_owner_is_token_email_witness :
  let req := Sample.as_user "alice@x.com" (Some (Sample.hotel "h2")) "" in
  let st := Sample.two_owners in
  let st' := (@serve Sample.env POST_wishlist 3 req st).2 in
  @caller Sample.env 3 req = Some Sample.alice
  ∧ (favoriteCollection st' = favoriteCollection st
     ∨ ∃ d, favoriteCollection st' = favoriteCollection st ++ [d]
            ∧ owned_by Sample.alice d).
Proof.
  intros req st st'.
  assert (@caller Sample.env 3 req = Some Sample.alice) as Hc
    by (vm_compute; reflexivity).
  split; [exact Hc|].
  exact (proj1 (add_owner_is_token_email (env := Sample.env) POST_wishlist 3 req st
                  Sample.alice (or_introl eq_refl) Hc)).
Defined.



(** * Further properties of the routes *)

Ltac split_cases :=
  repeat match goal with
         | |- context [match ?x with _ => _ end] =>
             lazymatch x with
             | cookie _ => fail
             | _ => destruct x eqn:?; simpl
             end
         end.

Section Coverage.

Context {env : Env}.

(** ** What a request can change *)

Lemma handler_changes r now req st :
  (handler r now req st).2 = st
  ∨ (r = POST_users ∧ status (handler r now req st).1 = 200%nat)
  ∨ ((r = POST_wishlist ∨ r = POST_wishlist_recommend)
     ∧ status (handler r now req st).1 = 201%nat)
  ∨ (r = DELETE_wishlist ∧ status (handler r now req st).1 = 200%nat).
Proof.
  destruct r; simpl.
  - by left.
  - unfold post_users. split_cases; auto.
  - left. apply post_jwt_state.
  - by left.
  - unfold post_wishlist. split_cases; auto 6.
  - unfold post_wishlist_recommend. split_cases; auto 6.
  - unfold get_wishlist. split_cases; auto.
  - unfold delete_wishlist. split_cases; auto 6.
Qed.

(** X1.  A request changes the store only when it is answered with success
    by one of the four writing routes: 200 on [POST /users], 201 on
    [POST /wishlist] and [POST /wishlist-recommend], 200 on
    [DELETE /wishlist/:id].  Every other answer (each 4xx and 5xx, and every
    answer of the other routes) leaves both collections and the key source
    exactly as they were. *)
Theorem store_changes_only_on_success r now req st :
  (serve r now req st).2 = st
  ∨ (r = POST_users ∧ status (serve r now req st).1 = 200%nat)
  ∨ ((r = POST_wishlist ∨ r = POST_wishlist_recommend)
     ∧ status (serve r now req st).1 = 201%nat)
  ∨ (r = DELETE_wishlist ∧ status (serve r now req st).1 = 200%nat).
Proof.
  unfold serve. destruct (behind_verifyJWT r); [|apply handler_changes].
  unfold guarded.
  destruct (verifyJWT_cases now req)
    as [[-> _] | [[-> _] | (token & u & -> & _)]]; try by left.
  apply handler_changes.
Qed.

Lemma handler_cookie r now req st :
  match cookie (handler r now req st).1 with
  | NoCookie => True
  | SetCookie name _ opts =>
      name = "token" ∧ opts = cookieOptions
      ∧ status (handler r now req st).1 = 200%nat
      ∧ (r = POST_users ∨ r = POST_jwt)
  | ClearCookie name opts =>
      name = "token" ∧ opts = cookieOptions ∧ r = POST_logout
  end.
Proof.
  destruct r; simpl; try done.
  - unfold post_users. split_cases; auto.
  - unfold post_jwt. split_cases; auto.
  - unfold post_wishlist. split_cases; auto.
  - unfold post_wishlist_recommend. split_cases; auto.
  - unfold get_wishlist. split_cases; auto.
  - unfold delete_wishlist. split_cases; auto.
Qed.

(** X2.  The session cookie is written only by a [POST /users] or a
    [POST /jwt] answered 200, and cleared only by [POST /logout]; no other
    route and no failing answer touches it.  Setting and clearing use the
    same name [token] and the same attributes [cookieOptions()]: always
    [httpOnly], and [secure] with [sameSite] [None] exactly in
    production. *)
Theorem cookie_only_on_session_routes r now req st :
  match cookie (serve r now req st).1 with
  | NoCookie => True
  | SetCookie name _ opts =>
      name = "token" ∧ opts = cookieOptions
      ∧ status (serve r now req st).1 = 200%nat
      ∧ (r = POST_users ∨ r = POST_jwt)
  | ClearCookie name opts =>
      name = "token" ∧ opts = cookieOptions ∧ r = POST_logout
  end
  ∧ httpOnly cookieOptions = true
  ∧ (secure cookieOptions = true ↔ NODE_ENV = "production")
  ∧ (sameSite cookieOptions = "None" ↔ NODE_ENV = "production")
  ∧ (sameSite cookieOptions = "Lax" ↔ NODE_ENV ≠ "production").
Proof.
  split.
  - unfold serve. destruct (behind_verifyJWT r); [|apply handler_cookie].
    unfold guarded.
    destruct (verifyJWT_cases now req)
      as [[-> _] | [[-> _] | (token & u & -> & _)]]; try done.
    apply handler_cookie.
  - unfold cookieOptions; simpl. split; [done|].
    case_bool_decide; split_and!; split; try done; intros; by simplify_eq.
Qed.

(** ** What a request is read for *)

Lemma handler_reads r now req1 req2 st :
  body req1 = body req2 → params req1 !! "id" = params req2 !! "id" →
  user_email req1 = user_email req2 →
  handler r now req1 st = handler r now req2 st.
Proof.
  intros Hb Hp Hu. destruct r; simpl; try done.
  - unfold post_users. by rewrite Hb.
  - unfold post_jwt. by rewrite Hb.
  - unfold post_wishlist. by rewrite Hb, Hu.
  - unfold post_wishlist_recommend. by rewrite Hb, Hu.
  - unfold get_wishlist. by rewrite Hu.
  - unfold delete_wishlist. by rewrite Hp, Hu.
Qed.

Lemma serve_reads r now req1 req2 st :
  extract_token req1 = extract_token req2 →
  body req1 = body req2 → params req1 !! "id" = params req2 !! "id" →
  serve r now req1 st = serve r now req2 st.
Proof.
  intros Ht Hb Hp. unfold serve.
  destruct (behind_verifyJWT r) eqn:Hr.
  - unfold guarded, verifyJWT. rewrite Ht.
    destruct (extract_token req2) as [token|]; [|done].
    case_bool_decide; [done|].
    destruct (jwt_verify token now) as [err|u]; [done|].
    by apply handler_reads.
  - destruct r; try discriminate Hr; simpl; try done.
    + unfold post_users. by rewrite Hb.
    + unfold post_jwt. by rewrite Hb.
Qed.


(** X4.  The bearer header carries a session as the cookie does: a request
    without [token] cookie whose header is [Bearer t] gets, on every route,
    the answer and the effect of the same request carrying [t] as its
    cookie ([t] not empty and without spaces). *)
Theorem bearer_header_admits_like_cookie r now req_header req_cookie st t :
  t ≠ "" → Forall (λ c, c ≠ " "%char) (list_ascii_of_string t) →
  cookies req_header !! "token" = None →
  headers req_header !! "authorization" = Some (String.append "Bearer " t) →
  cookies req_cookie !! "token" = Some t →
  body req_header = body req_cookie →
  params req_header !! "id" = params req_cookie !! "id" →
  serve r now req_header st = serve r now req_cookie st.
Proof.
  intros Hne Hsp Hc Hh Hc' Hb Hp. apply serve_reads; try done.
  unfold extract_token, bearer_token. rewrite Hc, Hh, Hc'.
  destruct (bearer_value t Hsp) as [-> ->]. by rewrite bool_decide_false.
Qed.

(** X5.  The cookie takes precedence even when it is wrong: a request whose
    non-empty [token] cookie fails verification is answered 403 on every
    guarded route, whatever its [authorization] header carries, and the
    store is left as it is.  A valid bearer header does not rescue a bad
    cookie. *)
Theorem bad_cookie_not_rescued_by_header r now req st t err :
  behind_verifyJWT r = true →
  cookies req !! "token" = Some t → t ≠ "" →
  jwt_verify t now = inl err →
  serve r now req st
  = (respond 403 (Message "Forbidden: Invalid or expired token"), st).
Proof.
  intros Hr Hc Hne Hv. unfold serve, guarded. rewrite Hr.
  rewrite (verifyJWT_rejected now req t err); [done| |done..].
  unfold extract_token. by rewrite Hc, bool_decide_false.
Qed.

(** X6.  A token that verifies but carries no email (or a falsy one) never
    reaches the store: on the guarded routes the answer is the 403 "user
    email missing in token", or the 400 of the body or identifier check
    that comes first, and the store is unchanged; [GET /wishlist] always
    answers that 403. *)
Theorem token_without_email_forbidden r now req st decoded :
  behind_verifyJWT r = true →
  verifyJWT now req = inr (set_user req decoded) →
  truthy_opt (decoded !! "email") = false →
  (serve r now req st).2 = st
  ∧ (status (serve r now req st).1 = 400%nat
     ∨ (serve r now req st).1
       = respond 403 (Message "Forbidden: user email missing in token"))
  ∧ (r = GET_wishlist →
     (serve r now req st).1
     = respond 403 (Message "Forbidden: user email missing in token")).
Proof.
  intros Hr Hv He. unfold serve, guarded. rewrite Hr, Hv.
  destruct r; try done; simpl.
  - unfold post_wishlist. rewrite user_email_set_user, He. simpl.
    split_cases; (split_and!; [done | auto | done]).
  - unfold post_wishlist_recommend. rewrite user_email_set_user, He. simpl.
    split_cases; (split_and!; [done | auto | done]).
  - unfold get_wishlist. rewrite user_email_set_user, He. simpl. auto.
  - unfold delete_wishlist. rewrite user_email_set_user, He. simpl.
    split_cases; (split_and!; [done | auto | done]).
Qed.

(** X7.  [POST /wishlist] takes a falsy [id] for a missing one: a body
    without [id], or with [id] null, [false], the empty string or the
    number 0, is answered 400 "missing id" and nothing is stored.  Likewise
    [POST /wishlist-recommend] answers 400 when [hotelId] or [name] is
    missing or falsy. *)
Theorem wishlist_falsy_fields_rejected now req req' st :
  verifyJWT now req = inr req' →
  (truthy_opt (body req ≫= (λ item, item !! "id")) = false →
   serve POST_wishlist now req st
   = (respond 400 (Message "Invalid wishlist data: missing id"), st))
  ∧ (truthy_opt (body req ≫= (λ item, item !! "hotelId")) = false
     ∨ truthy_opt (body req ≫= (λ item, item !! "name")) = false →
     serve POST_wishlist_recommend now req st
     = (respond 400 (Message "Invalid data"), st)).
Proof.
  intros Hv.
  destruct (verifyJWT_cases now req)
    as [[Hv' _] | [[Hv' _] | (token & u & Hv' & _)]];
    rewrite Hv' in Hv; simplify_eq.
  unfold serve, guarded; simpl. rewrite Hv'. split.
  - intros Hid. unfold post_wishlist. rewrite body_set_user.
    destruct (body req) as [item|]; [|done]. simpl in Hid. by rewrite Hid.
  - intros Hf. unfold post_wishlist_recommend. rewrite body_set_user.
    destruct (body req) as [item|]; [|done]. simpl in Hf.
    destruct Hf as [-> | ->]; simpl; [done|]. by rewrite orb_true_r.
Qed.

(** ** Owners do not interfere *)

Lemma add_appends_owned r now req st :
  r = POST_wishlist ∨ r = POST_wishlist_recommend →
  favoriteCollection (handler r now req st).2 = favoriteCollection st
  ∨ ∃ d P, user_email req = Some P
           ∧ favoriteCollection (handler r now req st).2
             = favoriteCollection st ++ [d]
           ∧ owned_by P d.
Proof.
  intros Hr. destruct (user_email req) as [P|] eqn:HP.
  - destruct Hr as [-> | ->]; simpl.
    + destruct (post_wishlist_owner now req st P HP) as [? | (d & ? & ?)];
        [by left | right; by exists d, P].
    + destruct (post_wishlist_recommend_owner now req st P HP) as [? | (d & ? & ?)];
        [by left | right; by exists d, P].
  - left. destruct Hr as [-> | ->]; simpl.
    + unfold post_wishlist. rewrite HP. simpl. by split_cases.
    + unfold post_wishlist_recommend. rewrite HP. simpl. by split_cases.
Qed.

Lemma delete_removes_owned now req st :
  favoriteCollection (delete_wishlist now req st).2 = favoriteCollection st
  ∨ ∃ l1 d l2 P oid,
      user_email req = Some P ∧ truthy P = true
      ∧ params req !! "id" ≫= ObjectId_new = Some oid
      ∧ favoriteCollection st = l1 ++ d :: l2
      ∧ favoriteCollection (delete_wishlist now req st).2 = l1 ++ l2
      ∧ Forall (λ d', matches [("_id", VOid oid); ("email", P)] d' = false) l1
      ∧ has_oid oid d ∧ owned_by P d
      ∧ (delete_wishlist now req st).1 = respond 200 (DeletedCount 1).
Proof.
  unfold delete_wishlist.
  destruct (ObjectId_isValid (default "" (params req !! "id"))) eqn:Hok;
    simpl; [|by left].
  destruct (user_email req) as [P|] eqn:HP; simpl; [|by left].
  destruct (truthy P) eqn:Ht; simpl; [|by left].
  apply ObjectId_isValid_new in Hok as [oid Hoid]. rewrite Hoid.
  destruct (deleteOne_spec [("_id", VOid oid); ("email", P)] (favoriteCollection st))
    as [[-> _] | (l1 & d & l2 & Hc & Hl1 & Hd & ->)]; simpl; [by left|].
  right. exists l1, d, l2, P, oid.
  apply matches_pair in Hd as [H1 H2]; [|done|by apply truthy_not_null].
  split_and!; try done.
  destruct (params req !! "id") as [id|] eqn:Hid; simpl in *; [done|].
  by vm_compute in Hoid.
Qed.

Lemma filter_owned_other O P (d : doc) :
  owned_by P d → P ≠ O → filter (owned_by O) [d] = [].
Proof.
  intros HP Hne. rewrite filter_cons, decide_False; [done|].
  unfold owned_by in *. congruence.
Qed.

Lemma unguarded_keeps_favorites r now req st :
  behind_verifyJWT r = false →
  favoriteCollection (handler r now req st).2 = favoriteCollection st.
Proof.
  intros Hr. destruct r; try discriminate Hr; simpl; try done.
  - unfold post_users. by split_cases.
  - by rewrite post_jwt_state.
Qed.

(** X8.  What an owner lists is changed only by that owner's own requests:
    a request on any route whose session does not verify to the email [O]
    (another caller, a rejected or missing token, a token without email)
    leaves the items [GET /wishlist] returns to [O] exactly as they were,
    in content and order. *)
Theorem other_callers_keep_listing r now req st O :
  caller now req ≠ Some O →
  filter (owned_by O) (favoriteCollection (serve r now req st).2)
  = filter (owned_by O) (favoriteCollection st).
Proof.
  intros Hc. unfold serve.
  destruct (behind_verifyJWT r) eqn:Hr;
    [|by rewrite unguarded_keeps_favorites].
  unfold guarded. unfold caller in Hc.
  destruct (verifyJWT_cases now req)
    as [[-> _] | [[-> _] | (token & u & Hv & _)]]; try done.
  rewrite Hv in *. rewrite user_email_set_user in Hc.
  destruct r; try discriminate Hr.
  - destruct (add_appends_owned POST_wishlist now (set_user req u) st
                ltac:(by left)) as [-> | (d & P & HP & -> & Hd)]; [done|].
    rewrite filter_app, (filter_owned_other O P d), app_nil_r; [done..|].
    rewrite user_email_set_user in HP. congruence.
  - destruct (add_appends_owned POST_wishlist_recommend now (set_user req u) st
                ltac:(by right)) as [-> | (d & P & HP & -> & Hd)]; [done|].
    rewrite filter_app, (filter_owned_other O P d), app_nil_r; [done..|].
    rewrite user_email_set_user in HP. congruence.
  - simpl. unfold get_wishlist. by split_cases.
  - simpl.
    destruct (delete_removes_owned now (set_user req u) st)
      as [-> | (l1 & d & l2 & P & oid & HP & _ & _ & -> & -> & _ & _ & Hd & _)];
      [done|].
    rewrite !filter_app, filter_cons, decide_False; [done|].
    rewrite user_email_set_user in HP. unfold owned_by in *. congruence.
Qed.

(** ** Adding, listing, removing *)

Lemma insertOne_fields d c pk id c' pk' :
  insertOne d c pk = Some (id, c', pk') →
  ∃ d', c' = c ++ [d'] ∧ (Some id ∉ ids c) ∧ d' !! "_id" = Some id
        ∧ ∀ k, k ≠ "_id" → d' !! k = d !! k.
Proof.
  intros Hi. destruct (insertOne_stored _ _ _ _ _ _ Hi) as (d' & ? & ? & ?).
  destruct (insertOne_ids _ _ _ _ _ _ Hi) as (_ & ? & _).
  by exists d'.
Qed.

(** What a 201 of one of the two add routes means. *)
Lemma add_created r now req st O :
  r = POST_wishlist ∨ r = POST_wishlist_recommend →
  user_email req = Some O →
  status (handler r now req st).1 = 201%nat →
  ∃ item id d,
    body req = Some item ∧ truthy O = true
    ∧ (handler r now req st).1 = respond 201 (InsertedId id)
    ∧ favoriteCollection (handler r now req st).2 = favoriteCollection st ++ [d]
    ∧ usersCollection (handler r now req st).2 = usersCollection st
    ∧ (Some id ∉ ids (favoriteCollection st))
    ∧ d !! "_id" = Some id ∧ d !! "email" = Some O
    ∧ d !! "createdAt" = Some (VDate now)
    ∧ (∀ k, k ≠ "_id" → k ≠ "email" → k ≠ "createdAt" → d !! k = item !! k).
Proof.
  intros Hr HO.
  assert (∀ item c pk id,
            insertOne (item_to_store now O item) (favoriteCollection st) (next_pk st)
            = Some (id, c, pk) →
            ∃ d, c = favoriteCollection st ++ [d]
                 ∧ (Some id ∉ ids (favoriteCollection st))
                 ∧ d !! "_id" = Some id ∧ d !! "email" = Some O
                 ∧ d !! "createdAt" = Some (VDate now)
                 ∧ (∀ k, k ≠ "_id" → k ≠ "email" → k ≠ "createdAt" →
                         d !! k = item !! k)) as Hins.
  { intros item c pk id Hi.
    destruct (insertOne_fields _ _ _ _ _ _ Hi) as (d & -> & Hfresh & Hid & Hd).
    exists d. split_and!; try done.
    - rewrite Hd by done. apply item_to_store_email.
    - rewrite Hd by done. unfold item_to_store. by rewrite lookup_insert_eq.
    - intros k ? ? ?. rewrite Hd by done. by apply item_to_store_field. }
  destruct Hr as [-> | ->]; simpl.
  - unfold post_wishlist. rewrite HO. simpl.
    destruct (body req) as [item|]; [|done].
    destruct (negb (truthy_opt (item !! "id"))); [done|].
    destruct (truthy O) eqn:Ht; simpl; [|done].
    destruct (findOne _ _); [done|].
    fold (item_to_store now O item).
    destruct (insertOne _ _ _) as [[[id c] pk]|] eqn:Hi; [|done].
    intros _. destruct (Hins _ _ _ _ Hi) as (d & -> & ? & ? & ? & ? & ?).
    exists item, id, d. simpl. by split_and!.
  - unfold post_wishlist_recommend. rewrite HO. simpl.
    destruct (body req) as [item|]; [|done].
    destruct (negb (truthy_opt (item !! "hotelId")) || negb (truthy_opt (item !! "name")));
      [done|].
    destruct (truthy O) eqn:Ht; simpl; [|done].
    destruct (findOne _ _); [done|].
    fold (item_to_store now O item).
    destruct (insertOne _ _ _) as [[[id c] pk]|] eqn:Hi; [|done].
    intros _. destruct (Hins _ _ _ _ Hi) as (d & -> & ? & ? & ? & ? & ?).
    exists item, id, d. simpl. by split_and!.
Qed.

(** X9.  What has been added is what is listed: when an add route answers
    201 with an [insertedId], the next [GET /wishlist] of the same caller
    returns the caller's earlier items followed by the new one, which
    carries that [_id], the caller's email, the time of the request as
    [createdAt], and every other field exactly as the body sent it. *)
Theorem add_then_list r now now' req req' st O item :
  r = POST_wishlist ∨ r = POST_wishlist_recommend →
  caller now req = Some O → caller now' req' = Some O →
  body req = Some item →
  status (serve r now req st).1 = 201%nat →
  let st1 := (serve r now req st).2 in
  ∃ id d,
    (serve r now req st).1 = respond 201 (InsertedId id)
    ∧ serve GET_wishlist now' req' st1
      = (respond 200 (Items (filter (owned_by O) (favoriteCollection st) ++ [d])), st1)
    ∧ d !! "_id" = Some id ∧ d !! "email" = Some O
    ∧ d !! "createdAt" = Some (VDate now)
    ∧ (∀ k, k ≠ "_id" → k ≠ "email" → k ≠ "createdAt" → d !! k = item !! k).
Proof.
  intros Hr Hc Hc' Hb.
  assert (behind_verifyJWT r = true) as Hbehind by (by destruct Hr as [-> | ->]).
  destruct (serve_caller r now req st O Hbehind Hc) as (u & Hu & ->).
  intros H201 st1.
  destruct (add_created r now (set_user req u) st O Hr Hu H201)
    as (item' & id & d & Hb' & Ht & Hresp & Hfav & _ & _ & Hid & He & Hcr & Hk).
  rewrite body_set_user, Hb in Hb'. simplify_eq.
  exists id, d. split; [done|].
  destruct (serve_caller GET_wishlist now' req' st1 O eq_refl Hc') as (u' & Hu' & ->).
  simpl handler. rewrite (get_wishlist_items now' _ st1 O) by done.
  split_and!; try done.
  unfold st1. rewrite Hfav, filter_app, filter_cons, decide_True by done.
  done.
Qed.

Lemma fresh_oid_no_match c o O :
  Some (VOid o) ∉ ids c →
  Forall (λ d : doc, matches [("_id", VOid o); ("email", O)] d = false) c.
Proof.
  intros Hfresh. apply Forall_forall. intros d Hd.
  apply not_true_is_false. intros Hm.
  unfold matches in Hm; simpl in Hm. apply andb_true_iff in Hm as [Hm _].
  apply (match_field_eq d "_id" (VOid o)) in Hm; [|done].
  apply Hfresh. unfold ids. apply list_elem_of_fmap. by exists d.
Qed.

(** X10.  Removing what was just added undoes it: when an add route answers
    201 with the [insertedId] [o], a [DELETE /wishlist/:id] of the same
    caller with an [id] that denotes [o] answers 200 with [deletedCount] 1,
    and both collections are again exactly what they were before the
    add. *)
Theorem add_then_remove_restores r now now' req req' st O o id :
  r = POST_wishlist ∨ r = POST_wishlist_recommend →
  caller now req = Some O → caller now' req' = Some O →
  (serve r now req st).1 = respond 201 (InsertedId (VOid o)) →
  params req' !! "id" = Some id → ObjectId_new id = Some o →
  let st1 := (serve r now req st).2 in
  let st2 := (serve DELETE_wishlist now' req' st1).2 in
  (serve DELETE_wishlist now' req' st1).1 = respond 200 (DeletedCount 1)
  ∧ favoriteCollection st2 = favoriteCollection st
  ∧ usersCollection st2 = usersCollection st.
Proof.
  intros Hr Hc Hc' Hresp Hid Hoid.
  assert (behind_verifyJWT r = true) as Hbehind by (by destruct Hr as [-> | ->]).
  destruct (serve_caller r now req st O Hbehind Hc) as (u & Hu & Hs).
  rewrite Hs in *. intros st1 st2.
  assert (status (handler r now (set_user req u) st).1 = 201%nat) as H201
    by (by rewrite Hresp).
  destruct (add_created r now (set_user req u) st O Hr Hu H201)
    as (item & id' & d & _ & Ht & Hresp' & Hfav & Husers & Hfresh & Hd & He & _).
  rewrite Hresp in Hresp'. simplify_eq.
  destruct (serve_caller DELETE_wishlist now' req' st1 O eq_refl Hc')
    as (u' & Hu' & Hs').
  assert (delete_wishlist now' (set_user req' u') st1
          = (respond 200 (DeletedCount 1),
             with_favorite st1 (favoriteCollection st) (next_pk st1))) as Hdel.
  { rewrite (delete_wishlist_valid now' _ st1 O id o) by done.
    replace (favoriteCollection st1) with (favoriteCollection st ++ [d]).
    rewrite (deleteOne_first _ (favoriteCollection st) d []).
    - simpl. by rewrite app_nil_r.
    - by apply fresh_oid_no_match.
    - apply matches_pair; [done | by apply truthy_not_null | done]. }
  unfold st2. rewrite Hs'. simpl handler. rewrite Hdel. simpl.
  by split_and!.
Qed.

Lemma NoDup_ids_removed l1 (d : doc) l2 v :
  NoDup (ids (l1 ++ d :: l2)) → d !! "_id" = Some v → Some v ∉ ids (l1 ++ l2).
Proof.
  rewrite !ids_app. unfold ids at 2; simpl. fold (ids l2).
  intros Hnd Hd. rewrite Hd in Hnd.
  apply NoDup_app in Hnd as (_ & Hl1 & Hl2).
  apply NoDup_cons in Hl2 as [Hl2 _].
  intros Hin. apply elem_of_app in Hin as [Hin | Hin]; [|done].
  apply (Hl1 _ Hin). by left.
Qed.

(** X11.  A removed item is gone for good: on a store whose primary keys
    are distinct (every reachable store is such), after a
    [DELETE /wishlist/:id] answered 200 no stored item carries that
    identifier any more, and the same request sent again is answered 404
    and changes nothing. *)
Theorem remove_twice_not_found now now' req req' st O id oid :
  NoDup (ids (favoriteCollection st)) →
  caller now req = Some O → caller now' req' = Some O →
  params req !! "id" = Some id → params req' !! "id" = Some id →
  ObjectId_new id = Some oid →
  status (serve DELETE_wishlist now req st).1 = 200%nat →
  let st1 := (serve DELETE_wishlist now req st).2 in
  (∀ d, d ∈ favoriteCollection st1 → ¬ has_oid oid d)
  ∧ serve DELETE_wishlist now' req' st1
    = (respond 404 (Message "Not found or not authorized to delete"), st1).
Proof.
  intros Hnd Hc Hc' Hid Hid' Hoid.
  destruct (serve_caller DELETE_wishlist now req st O eq_refl Hc) as (u & Hu & ->).
  simpl handler. intros H200 st1.
  assert (truthy O = true) as Ht.
  { destruct (truthy O) eqn:Ht; [done|]. exfalso. revert H200.
    unfold delete_wishlist. rewrite params_set_user, Hid, user_email_set_user, Hu.
    simpl. rewrite Ht. by destruct (ObjectId_isValid id). }
  assert (Some (VOid oid) ∉ ids (favoriteCollection st1)) as Hgone.
  { unfold st1. revert H200.
    rewrite (delete_wishlist_valid now _ st O id oid) by done.
    destruct (deleteOne_spec [("_id", VOid oid); ("email", O)] (favoriteCollection st))
      as [[-> _] | (l1 & d & l2 & Hfav & _ & Hd & ->)]; simpl; [done|].
    intros _. rewrite Hfav in Hnd.
    apply matches_pair in Hd as [Hd _]; [|done|by apply truthy_not_null].
    by eapply NoDup_ids_removed. }
  split.
  - intros d Hd Hoid'. apply Hgone. unfold ids.
    apply list_elem_of_fmap. by exists d.
  - destruct (serve_caller DELETE_wishlist now' req' st1 O eq_refl Hc')
      as (u' & Hu' & ->).
    simpl handler. rewrite (delete_wishlist_valid now' _ st1 O id oid) by done.
    by rewrite deleteOne_no_match by (by apply fresh_oid_no_match).
Qed.

(** ** What every reachable store satisfies *)

Lemma insert_item_ok now O item c pk id c' pk' :
  truthy O = true →
  insertOne (item_to_store now O item) c pk = Some (id, c', pk') →
  ∃ d, c' = c ++ [d] ∧ item_ok d.
Proof.
  intros Ht Hi.
  destruct (insertOne_fields _ _ _ _ _ _ Hi) as (d & -> & _ & Hid & Hd).
  exists d. split; [done|]. unfold item_ok. split_and!.
  - rewrite Hd by done. by rewrite item_to_store_email.
  - by rewrite Hid.
  - exists now. rewrite Hd by done. unfold item_to_store.
    by rewrite lookup_insert_eq.
Qed.

Lemma handler_items_ok r now req st :
  Forall item_ok (favoriteCollection st) →
  Forall item_ok (favoriteCollection (handler r now req st).2).
Proof.
  intros Hst. destruct r; simpl; try done.
  - unfold post_users. by split_cases.
  - by rewrite post_jwt_state.
  - unfold post_wishlist.
    destruct (body req) as [item|]; [|done].
    destruct (negb (truthy_opt (item !! "id"))); [done|].
    destruct (user_email req) as [O|]; simpl; [|done].
    destruct (truthy O) eqn:Ht; simpl; [|done].
    destruct (findOne _ _); [done|].
    fold (item_to_store now O item).
    destruct (insertOne _ _ _) as [[[id c] pk]|] eqn:Hi; [|done]. simpl.
    destruct (insert_item_ok _ _ _ _ _ _ _ _ Ht Hi) as (d & -> & Hd).
    apply Forall_app. split; [done|]. by constructor.
  - unfold post_wishlist_recommend.
    destruct (body req) as [item|]; [|done].
    destruct (negb (truthy_opt (item !! "hotelId")) || negb (truthy_opt (item !! "name")));
      [done|].
    destruct (user_email req) as [O|]; simpl; [|done].
    destruct (truthy O) eqn:Ht; simpl; [|done].
    destruct (findOne _ _); [done|].
    fold (item_to_store now O item).
    destruct (insertOne _ _ _) as [[[id c] pk]|] eqn:Hi; [|done]. simpl.
    destruct (insert_item_ok _ _ _ _ _ _ _ _ Ht Hi) as (d & -> & Hd).
    apply Forall_app. split; [done|]. by constructor.
  - unfold get_wishlist. by split_cases.
  - destruct (delete_removes_owned now req st)
      as [-> | (l1 & d & l2 & P & oid & _ & _ & _ & Hfav & -> & _)]; [done|].
    rewrite Hfav in Hst. apply Forall_app in Hst as [Hl1 Hl2].
    apply Forall_cons in Hl2 as [_ Hl2]. by apply Forall_app.
Qed.

Lemma serve_items_ok r now req st :
  Forall item_ok (favoriteCollection st) →
  Forall item_ok (favoriteCollection (serve r now req st).2).
Proof.
  intros Hst. unfold serve.
  destruct (behind_verifyJWT r); [|by apply handler_items_ok].
  unfold guarded.
  destruct (verifyJWT_cases now req)
    as [[-> _] | [[-> _] | (token & u & -> & _)]]; try done.
  by apply handler_items_ok.
Qed.

(** X12.  No stored wishlist item is without owner: in every state the
    server can reach, each item of the wishlist collection has a truthy
    [email] (the one of the token that added it), a primary key and a
    creation date. *)
Theorem reachable_items_owned st :
  reachable st → Forall item_ok (favoriteCollection st).
Proof.
  induction 1 as [|st r now req _ IH _]; [constructor|].
  by apply serve_items_ok.
Qed.

(** X13.  In every reachable state the primary keys of each collection are
    distinct, so at most one wishlist item carries a given identifier, and
    every [ObjectId] the driver created is older than the next one it will
    create. *)
Theorem reachable_ids_unique st i j (d1 d2 : doc) :
  reachable st →
  favoriteCollection st !! i = Some d1 → favoriteCollection st !! j = Some d2 →
  d1 !! "_id" = d2 !! "_id" →
  i = j
  ∧ NoDup (ids (favoriteCollection st)) ∧ NoDup (ids (usersCollection st))
  ∧ (∀ o, d1 !! "_id" = Some (VOid o) → (o < next_pk st)%N).
Proof.
  intros Hst H1 H2 Heq. apply reachable_store_ok in Hst as [Hf Hu Hbf Hbu].
  split_and!; try done.
  - eapply (NoDup_lookup (ids (favoriteCollection st))); [done|..].
    + unfold ids. by rewrite list_lookup_fmap, H1.
    + unfold ids. rewrite list_lookup_fmap, H2. simpl. by rewrite Heq.
  - intros o Ho. apply Hbf. unfold ids. apply list_elem_of_fmap.
    exists d1. split; [done|]. by eapply list_elem_of_lookup_2.
Qed.

(** ** User records *)

Lemma update_first_pointwise q setd c c' :
  update_first q setd c = Some (Some c') →
  length c' = length c
  ∧ ∀ i d, c !! i = Some d →
      ∃ d', c' !! i = Some d'
            ∧ (d' = d ∨ (matches q d = true ∧ apply_set setd d = Some d')).
Proof.
  revert c'. induction c as [|x c IH]; intros c'; simpl; [done|].
  destruct (matches q x) eqn:Hx.
  - destruct (apply_set setd x) as [x'|] eqn:Hs; [|done].
    intros ?; simplify_eq. split; [done|].
    intros [|i] d Hd; simpl in *; simplify_eq; eauto.
  - destruct (update_first q setd c) as [[r|]|]; try done.
    intros ?; simplify_eq. destruct (IH r eq_refl) as [Hlen Hpt].
    split; [simpl; by rewrite Hlen|].
    intros [|i] d Hd; simpl in *; simplify_eq; eauto.
Qed.

Lemma update_first_none q setd c :
  update_first q setd c = None → Forall (λ d, matches q d = false) c.
Proof.
  induction c as [|x c IH]; simpl; [by constructor|].
  destruct (matches q x) eqn:Hx; [by destruct (apply_set setd x)|].
  destruct (update_first q setd c) as [[r|]|]; try done.
  intros _. constructor; [done | by apply IH].
Qed.

Lemma profile_set_keeps e now p d d' :
  matches [("email", VStr e)] d = true →
  apply_set (profile_set e now p) d = Some d' →
  d' !! "_id" = d !! "_id" ∧ d' !! "email" = d !! "email"
  ∧ d' !! "createdAt" = d !! "createdAt"
  ∧ d' !! "updatedAt" = Some (VDate now).
Proof.
  intros Hm Hs. apply matches_single in Hm; [|done].
  split; [by eapply apply_set_id|].
  apply apply_set_union in Hs as ->. split_and!.
  - erewrite lookup_union_Some_l; [by rewrite Hm|]. apply profile_set_email.
  - by rewrite lookup_union_r by apply profile_set_createdAt.
  - erewrite lookup_union_Some_l; [done|]. apply profile_set_updatedAt.
Qed.

Lemma upsert_pointwise e now p c pk :
  match updateOne_upsert [("email", VStr e)] (profile_set e now p)
          {["createdAt" := VDate now]} c pk with
  | WriteError => True
  | Modified c' =>
      length c' = length c
      ∧ ∀ i d, c !! i = Some d →
          ∃ d', c' !! i = Some d'
                ∧ (d' = d
                   ∨ (d !! "email" = Some (VStr e)
                      ∧ d' !! "_id" = d !! "_id" ∧ d' !! "email" = d !! "email"
                      ∧ d' !! "createdAt" = d !! "createdAt"
                      ∧ d' !! "updatedAt" = Some (VDate now)))
  | Upserted id c' _ =>
      count_email e c = 0%nat
      ∧ ∃ d, c' = c ++ [d] ∧ d !! "_id" = Some id
             ∧ d !! "email" = Some (VStr e)
             ∧ d !! "createdAt" = Some (VDate now)
             ∧ d !! "updatedAt" = Some (VDate now)
  end.
Proof.
  unfold updateOne_upsert.
  destruct (update_first _ _ c) as [[c'|]|] eqn:Hu; [|done|].
  - destruct (update_first_pointwise _ _ _ _ Hu) as [Hlen Hpt].
    split; [done|]. intros i d Hd.
    destruct (Hpt i d Hd) as (d' & Hd' & [-> | [Hm Hs]]); [by eauto|].
    exists d'. split; [done|]. right.
    split; [by apply matches_single in Hm|]. by eapply profile_set_keeps.
  - assert (count_email e c = 0%nat) as Hzero.
    { apply count_email_zero. by eapply update_first_none. }
    set (d := {["createdAt" := VDate now]} ∪ (profile_set e now p ∪ list_to_map _)).
    assert (d !! "email" = Some (VStr e)) as Hemail.
    { unfold d. rewrite lookup_union_r by done.
      erewrite lookup_union_Some_l; [done|]. apply profile_set_email. }
    assert (d !! "createdAt" = Some (VDate now)) as Hcreated.
    { unfold d. by erewrite lookup_union_Some_l. }
    assert (d !! "updatedAt" = Some (VDate now)) as Hupdated.
    { unfold d. rewrite lookup_union_r by done.
      erewrite lookup_union_Some_l; [done|]. apply profile_set_updatedAt. }
    destruct (d !! "_id") as [v|] eqn:Hid.
    + destruct (existsb _ c); [done|]. split; [done|]. by exists d.
    + destruct (existsb _ c); [done|]. split; [done|].
      exists (<["_id" := VOid pk]> d).
      rewrite lookup_insert_eq, !lookup_insert_ne by done. done.
Qed.

Lemma post_users_pointwise now req st :
  usersCollection (post_users now req st).2 = usersCollection st
  ∨ ∃ e, match updateOne_upsert [("email", VStr e)]
                 (profile_set e now (default ∅ (body req)))
                 {["createdAt" := VDate now]} (usersCollection st) (next_pk st) with
         | WriteError => False
         | Modified c | Upserted _ c _ =>
             usersCollection (post_users now req st).2 = c
         end.
Proof.
  unfold post_users.
  destruct (body req ≫= _) as [[| | |e| |]|]; simpl; try (by left);
    try (left; by split_cases).
  case_bool_decide; [by left|].
  fold (profile_set (toLowerCase e) now (default ∅ (body req))).
  destruct (updateOne_upsert _ _ _ _ _) eqn:Hu; [by left| |];
    right; exists (toLowerCase e); by rewrite Hu.
Qed.

Lemma serve_users r now req st :
  usersCollection (serve r now req st).2 = usersCollection st
  ∨ (r = POST_users
     ∧ usersCollection (serve r now req st).2
       = usersCollection (post_users now req st).2).
Proof.
  unfold serve. destruct (behind_verifyJWT r) eqn:Hr.
  - left. unfold guarded.
    destruct (verifyJWT_cases now req)
      as [[-> _] | [[-> _] | (token & u & -> & _)]]; try done.
    destruct r; try discriminate Hr; simpl.
    + unfold post_wishlist. by split_cases.
    + unfold post_wishlist_recommend. by split_cases.
    + unfold get_wishlist. by split_cases.
    + unfold delete_wishlist. by split_cases.
  - destruct r; try discriminate Hr; simpl; auto.
    left. by rewrite post_jwt_state.
Qed.

(** X14.  No route removes, reorders or re-identifies a user record: the
    record at each position of the users collection is still at that
    position after any request, with the same [_id], the same [email] and
    the same [createdAt].  Whatever a later [POST /users] sends, the
    creation date of an account never changes. *)
Theorem user_record_identity_kept r now req st i d :
  usersCollection st !! i = Some d →
  ∃ d', usersCollection (serve r now req st).2 !! i = Some d'
        ∧ d' !! "_id" = d !! "_id"
        ∧ d' !! "email" = d !! "email"
        ∧ d' !! "createdAt" = d !! "createdAt".
Proof.
  intros Hd.
  destruct (serve_users r now req st) as [-> | [_ ->]]; [by exists d|].
  destruct (post_users_pointwise now req st) as [-> | [e He]]; [by exists d|].
  pose proof (upsert_pointwise e now (default ∅ (body req))
                (usersCollection st) (next_pk st)) as Hpt.
  destruct (updateOne_upsert _ _ _ _ _) as [|c|id c pk]; [done| |]; rewrite He.
  - destruct Hpt as [_ Hpt].
    destruct (Hpt i d Hd) as (d' & Hd' & [Heq | (_ & ? & ? & ? & _)]);
      exists d'; [by subst | by split_and!].
  - destruct Hpt as (_ & d0 & -> & _). exists d.
    split_and!; try done. by apply lookup_app_l_Some.
Qed.




(** ** Sessions *)

Lemma findOne_email e c :
  match findOne [("email", VStr e)] c with
  | Some u => u !! "email" = Some (VStr e) ∧ (0 < count_email e c)%nat
  | None => count_email e c = 0%nat
  end.
Proof.
  unfold findOne, count_email.
  rewrite (find_ext_bool _ (has_email e)) by apply has_email_matches.
  destruct (List.find _ c) as [u|] eqn:Hf.
  - pose proof (List.find_some _ _ Hf) as [Hin Hu].
    split; [by apply bool_decide_eq_true in Hu|].
    destruct (List.filter (has_email e) c) eqn:Hfilter; simpl; [|lia].
    assert (List.In u (List.filter (has_email e) c)) as Hin'
      by (by apply List.filter_In).
    by rewrite Hfilter in Hin'.
  - by apply find_none_length.
Qed.

Lemma post_jwt_valid now req st b e :
  body req = Some b → b !! "email" = Some (VStr e) → e ≠ "" →
  post_jwt now req st
  = if decide (count_email (toLowerCase e) (usersCollection st) = 0%nat)
    then (respond 404 (Message "User not found"), st)
    else ({| status := 200; json := Success;
             cookie := SetCookie "token"
                         (jwt_sign {["email" := VStr (toLowerCase e)]} "200h" now)
                         cookieOptions |}, st).
Proof.
  intros Hb He Hne. unfold post_jwt. rewrite Hb, He, bool_decide_false by done.
  pose proof (findOne_email (toLowerCase e) (usersCollection st)) as Hf.
  destruct (findOne _ _) as [u|].
  - destruct Hf as [Hu Hpos]. rewrite decide_False by lia.
    unfold get. by rewrite Hu.
  - by rewrite decide_True.
Qed.

(** X16.  [POST /jwt] issues a session exactly for registered addresses: for
    a body with a non-empty string email, the answer is 200 if and only if
    a user record with the lower-cased email exists, and 404 "User not
    found" otherwise; the token of the cookie is signed for the lower-cased
    email with a lifetime of 200 hours, and the store is never changed. *)
Theorem jwt_only_for_registered now req st b e :
  body req = Some b → b !! "email" = Some (VStr e) → e ≠ "" →
  (serve POST_jwt now req st).2 = st
  ∧ ((0 < count_email (toLowerCase e) (usersCollection st))%nat →
     (serve POST_jwt now req st).1
     = {| status := 200; json := Success;
          cookie := SetCookie "token"
                      (jwt_sign {["email" := VStr (toLowerCase e)]} "200h" now)
                      cookieOptions |})
  ∧ (count_email (toLowerCase e) (usersCollection st) = 0%nat →
     (serve POST_jwt now req st).1 = respond 404 (Message "User not found")).
Proof.
  intros Hb He Hne. unfold serve; simpl.
  rewrite (post_jwt_valid now req st b e) by done.
  case_decide as Hz; split_and!; try done; intros; lia.
Qed.

Lemma post_users_registers now req st p e :
  body req = Some p → p !! "email" = Some (VStr e) → e ≠ "" →
  status (post_users now req st).1 ≠ 500%nat →
  (post_users now req st).1.(status) = 200%nat
  ∧ cookie (post_users now req st).1
    = SetCookie "token" (jwt_sign {["email" := VStr (toLowerCase e)]} "365d" now)
        cookieOptions
  ∧ (0 < count_email (toLowerCase e) (usersCollection (post_users now req st).2))%nat.
Proof.
  intros Hb He Hne. rewrite (post_users_valid now req st p e) by done. simpl.
  pose proof (upsert_pointwise (toLowerCase e) now p
                (usersCollection st) (next_pk st)) as Hpt.
  unfold updateOne_upsert in *.
  destruct (update_first _ _ (usersCollection st)) as [[c|]|] eqn:Hu; simpl.
  - intros _. split_and!; try done.
    destruct Hpt as [Hlen Hpt].
    assert (Exists (λ d, matches [("email", VStr (toLowerCase e))] d = true)
              (usersCollection st)) as Hex.
    { clear Hpt Hlen. revert c Hu.
      generalize (profile_set (toLowerCase e) now p).
      generalize [("email", VStr (toLowerCase e))].
      intros q setd. induction (usersCollection st) as [|x l IH]; simpl; [done|].
      intros c. destruct (matches q x) eqn:Hx; [intros _; by left|].
      destruct (update_first q setd l) as [[r|]|]; try done.
      intros _. right. by eapply IH. }
    apply Exists_exists in Hex as (d & Hd & Hm).
    apply list_elem_of_lookup in Hd as [i Hd].
    destruct (Hpt i d Hd) as (d' & Hd' & Hcase).
    assert (d' !! "email" = Some (VStr (toLowerCase e))) as He'.
    { apply matches_single in Hm; [|done].
      destruct Hcase as [-> | (_ & _ & -> & _)]; done. }
    assert (List.In d' (List.filter (has_email (toLowerCase e)) c)) as Hin.
    { apply List.filter_In. split.
      - apply list_elem_of_In. by eapply list_elem_of_lookup_2.
      - unfold has_email. by apply bool_decide_eq_true. }
    unfold count_email. destruct (List.filter _ c); [done | simpl; lia].
  - done.
  - revert Hpt.
    destruct (_ !! "_id") as [v|];
      match goal with
      | |- context [existsb ?f ?l] => destruct (existsb f l)
      end; try done; simpl;
      intros (_ & d & -> & _ & Hemail & _) _; (split_and!; try done);
      rewrite count_email_app; unfold count_email at 2; cbn [List.filter];
      (assert (has_email (toLowerCase e) d = true) as ->
         by (by apply bool_decide_eq_true)); simpl; lia.
Qed.

(** X17.  Registration opens the way to [POST /jwt]: after a [POST /users]
    that did not end in a store error, a [POST /jwt] for the same address
    in any letter case is answered 200 with a token signed for the
    lower-cased address, and it leaves the store as the registration left
    it. *)
Theorem register_then_jwt now1 now2 req1 req2 st p b e1 e2 :
  body req1 = Some p → p !! "email" = Some (VStr e1) → e1 ≠ "" →
  body req2 = Some b → b !! "email" = Some (VStr e2) → e2 ≠ "" →
  toLowerCase e1 = toLowerCase e2 →
  status (serve POST_users now1 req1 st).1 ≠ 500%nat →
  let st1 := (serve POST_users now1 req1 st).2 in
  serve POST_jwt now2 req2 st1
  = ({| status := 200; json := Success;
        cookie := SetCookie "token"
                    (jwt_sign {["email" := VStr (toLowerCase e1)]} "200h" now2)
                    cookieOptions |}, st1).
Proof.
  intros Hb1 H1 Hne1 Hb2 H2 Hne2 Hlc. unfold serve; simpl. intros Hok.
  destruct (post_users_registers now1 req1 st p e1 Hb1 H1 Hne1 Hok) as (_ & _ & Hpos).
  rewrite (post_jwt_valid now2 req2 _ b e2) by done.
  rewrite <- Hlc. rewrite decide_False by lia. done.
Qed.

(** X18.  The cookie of a registration opens the registrant's own wishlist:
    a [POST /users] that does not end in a store error sets the [token]
    cookie to a token signed for the lower-cased email; when that token is
    not empty and verifies to its email, any request carrying it as cookie
    is served [GET /wishlist] with exactly the items whose [email] is the
    lower-cased address, in any store. *)
Theorem registration_cookie_lists_own_items now now' req st p e :
  body req = Some p → p !! "email" = Some (VStr e) →
  e ≠ "" → toLowerCase e ≠ "" →
  status (serve POST_users now req st).1 ≠ 500%nat →
  let token := jwt_sign {["email" := VStr (toLowerCase e)]} "365d" now in
  (token ≠ ""
   ∧ ∃ decoded, jwt_verify token now' = inr decoded
                ∧ decoded !! "email" = Some (VStr (toLowerCase e))) →
  cookie (serve POST_users now req st).1 = SetCookie "token" token cookieOptions
  ∧ ∀ req' st',
      cookies req' !! "token" = Some token →
      serve GET_wishlist now' req' st'
      = (respond 200
           (Items (filter (owned_by (VStr (toLowerCase e))) (favoriteCollection st'))),
         st').
Proof.
  intros Hb He Hne Hlc. unfold serve at 1 2; simpl.
  intros Hok (Htok & decoded & Hv & Hd).
  set (token := jwt_sign {["email" := VStr (toLowerCase e)]} "365d" now) in *.
  destruct (post_users_registers now req st p e Hb He Hne Hok) as (_ & Hcookie & _).
  split; [done|]. intros req' st' Hc.
  unfold serve, guarded; simpl.
  rewrite (verifyJWT_admitted now' req' token decoded); [| |done..].
  - apply get_wishlist_items; [by rewrite user_email_set_user|].
    simpl. by rewrite bool_decide_false.
  - unfold extract_token. by rewrite Hc, bool_decide_false.
Qed.

(** ** Cross-origin policy *)

Lemma split_pieces_no_sep sep s :
  Forall (λ piece, Forall (λ c, c ≠ sep) (list_ascii_of_string piece)) (split sep s).
Proof.
  induction s as [|c s IH]; simpl.
  - repeat constructor.
  - destruct (Ascii.eqb c sep) eqn:Hc.
    + constructor; [constructor | done].
    + apply Ascii.eqb_neq in Hc.
      destruct (split sep s) as [|piece rest]; [repeat constructor; done|].
      apply Forall_cons in IH as [Hp Hr].
      constructor; [|done]. simpl. by constructor.
Qed.

Lemma split_pieces_chars (P : ascii → Prop) sep s :
  Forall P (list_ascii_of_string s) →
  Forall (λ piece, Forall P (list_ascii_of_string piece)) (split sep s).
Proof.
  induction s as [|c s IH]; simpl.
  - repeat constructor.
  - intros Hs. apply Forall_cons in Hs as [Hc Hs]. specialize (IH Hs).
    destruct (Ascii.eqb c sep).
    + constructor; [constructor | done].
    + destruct (split sep s) as [|piece rest]; [repeat constructor; done|].
      apply Forall_cons in IH as [Hp Hr].
      constructor; [|done]. simpl. by constructor.
Qed.

Lemma trimStart_chars (P : ascii → Prop) s :
  Forall P (list_ascii_of_string s) → Forall P (list_ascii_of_string (trimStart s)).
Proof.
  induction s as [|c s IH]; simpl; [done|].
  intros Hs. destruct (is_space c); [|done].
  apply Forall_cons in Hs as [_ Hs]. by apply IH.
Qed.

Lemma trimEnd_chars (P : ascii → Prop) s :
  Forall P (list_ascii_of_string s) → Forall P (list_ascii_of_string (trimEnd s)).
Proof.
  induction s as [|c s IH]; simpl; [done|].
  intros Hs. apply Forall_cons in Hs as [Hc Hs]. specialize (IH Hs).
  destruct (trimEnd s) as [|c' t].
  - destruct (is_space c); simpl; [done | by constructor].
  - simpl. by constructor.
Qed.

Lemma trimStart_head s c rest :
  trimStart s = String c rest → is_space c = false.
Proof.
  induction s as [|x s IH]; simpl; [done|].
  destruct (is_space x) eqn:Hx; [done|]. intros ?; by simplify_eq.
Qed.

Lemma trimEnd_head s c rest :
  trimEnd s = String c rest → ∃ rest', s = String c rest'.
Proof.
  destruct s as [|x s]; simpl; [done|].
  destruct (trimEnd s); [destruct (is_space x)|]; intros ?; simplify_eq; eauto.
Qed.

Lemma trimEnd_last s c :
  last (list_ascii_of_string (trimEnd s)) = Some c → is_space c = false.
Proof.
  induction s as [|x s IH]; simpl; [done|].
  destruct (trimEnd s) as [|c' t] eqn:Ht.
  - destruct (is_space x) eqn:Hx; simpl; [done|]. intros ?; by simplify_eq.
  - simpl in *. done.
Qed.

Lemma trim_ascii_shape (P : ascii → Prop) s :
  Forall P (list_ascii_of_string s) →
  Forall P (list_ascii_of_string (trim_ascii s))
  ∧ (∀ c rest, trim_ascii s = String c rest → is_space c = false)
  ∧ (∀ c, last (list_ascii_of_string (trim_ascii s)) = Some c → is_space c = false).
Proof.
  intros Hs. unfold trim_ascii. split_and!.
  - by apply trimEnd_chars, trimStart_chars.
  - intros c rest Ht. apply trimEnd_head in Ht as [rest' Ht].
    by eapply trimStart_head.
  - apply trimEnd_last.
Qed.

(** [trim_ascii] only removes characters. *)
Lemma trim_ascii_keeps_chars s c :
  c ∈ list_ascii_of_string (trim_ascii s) → c ∈ list_ascii_of_string s.
Proof.
  revert c. apply (proj1 (Forall_forall _ _)).
  apply trim_ascii_shape. by apply Forall_forall.
Qed.

Lemma cors_origin_allowed allowed o :
  o ≠ "" → cors_origin allowed (Some o) = true ↔ o ∈ allowed.
Proof.
  intros Hne. unfold cors_origin. rewrite bool_decide_false by done.
  apply bool_decide_eq_true.
Qed.

(** X19.  The cross-origin policy, for whatever [trim] the platform
    provides: a request without [Origin] (or with an empty one) is always
    let through; any other origin is let through exactly if it is [trim] of
    one of the comma-separated entries of [ALLOWED_ORIGINS] (of
    [http://localhost:5173] when that is unset or empty).  Since trimming
    only removes characters, an allowed origin never contains a comma.  For
    a configuration of ASCII characters, where [trim] removes the characters
    9 to 13 and 32, an allowed origin is ASCII and neither starts nor ends
    with one of these.  When [ALLOWED_ORIGINS] is unset or empty the only
    allowed origin is [http://localhost:5173] ([trim] leaving it as it
    is). *)
Theorem cors_origin_policy (trim : string → string) cfg :
  cors_origin (allowedOrigins trim cfg) None = true
  ∧ cors_origin (allowedOrigins trim cfg) (Some "") = true
  ∧ (∀ o, o ≠ "" →
       cors_origin (allowedOrigins trim cfg) (Some o) = true
       ↔ ∃ entry, entry ∈ split "," (configured_origins cfg) ∧ o = trim entry)
  ∧ ((∀ s c, c ∈ list_ascii_of_string (trim s) → c ∈ list_ascii_of_string s) →
     ∀ o, o ≠ "" → cors_origin (allowedOrigins trim cfg) (Some o) = true →
          Forall (λ c, c ≠ ","%char) (list_ascii_of_string o))
  ∧ ((∀ s, ascii_only s → trim s = trim_ascii s) →
     ascii_only (configured_origins cfg) →
     ∀ o, o ≠ "" → cors_origin (allowedOrigins trim cfg) (Some o) = true →
          ascii_only o
          ∧ (∀ c rest, o = String c rest → is_space c = false)
          ∧ (∀ c, last (list_ascii_of_string o) = Some c → is_space c = false))
  ∧ ((cfg = None ∨ cfg = Some "") →
     trim "http://localhost:5173" = "http://localhost:5173" →
     ∀ o, o ≠ "" →
          cors_origin (allowedOrigins trim cfg) (Some o) = true
          ↔ o = "http://localhost:5173").
Proof.
  assert (∀ o, o ≠ "" →
       cors_origin (allowedOrigins trim cfg) (Some o) = true
       ↔ ∃ entry, entry ∈ split "," (configured_origins cfg) ∧ o = trim entry)
    as Hallowed.
  { intros o Hne. rewrite cors_origin_allowed by done. unfold allowedOrigins.
    rewrite list_elem_of_fmap. split; intros (entry & ? & ?); eauto. }
  split_and!; try done.
  - intros Htrim o Hne Ho. apply Hallowed in Ho as (entry & Hentry & ->); [|done].
    pose proof (proj1 (Forall_forall _ _) (split_pieces_no_sep "," _) entry Hentry)
      as Hchars.
    apply Forall_forall. intros c Hc. apply Htrim in Hc.
    exact (proj1 (Forall_forall _ _) Hchars c Hc).
  - intros Htrim Hcfg o Hne Ho.
    apply Hallowed in Ho as (entry & Hentry & ->); [|done].
    assert (ascii_only entry) as Hascii.
    { exact (proj1 (Forall_forall _ _) (split_pieces_chars _ "," _ Hcfg) entry Hentry). }
    rewrite (Htrim entry Hascii). by apply trim_ascii_shape.
  - intros Hcfg Htrim o Hne. rewrite Hallowed by done.
    assert (configured_origins cfg = "http://localhost:5173") as ->
      by (by destruct Hcfg as [-> | ->]).
    assert (split "," "http://localhost:5173" = ["http://localhost:5173"]) as ->
      by reflexivity.
    split.
    + intros (entry & Hentry & ->). apply list_elem_of_singleton in Hentry.
      by subst.
    + intros ->. exists "http://localhost:5173".
      split; [by apply list_elem_of_singleton|done].
Qed.

(** ** The previous revision *)

Lemma previous_verifyJWT_cases now req :
  (∃ r, Previous.verifyJWT now req = inl r
        ∧ (status r = 401%nat ∨ status r = 403%nat))
  ∨ ∃ token decoded,
      Previous.verifyJWT now req = inr (set_user req decoded)
      ∧ cookies req !! "token" = Some token ∧ token ≠ ""
      ∧ jwt_verify token now = inr decoded.
Proof.
  unfold Previous.verifyJWT.
  destruct (cookies req !! "token") as [token|]; [|left; eauto].
  case_bool_decide; [left; eauto|].
  destruct (jwt_verify token now) as [err|decoded] eqn:Hv; [left; eauto|].
  right. by exists token, decoded.
Qed.

(** X20.  In the previous revision [GET /wishlist] is not scoped: any
    request the middleware lets through, whatever email its token carries,
    is answered 200 with the whole collection, the items of every owner
    included, and a request without cookie is answered 401 even when it
    carries a bearer header. *)
Theorem previous_lists_every_owner now req st :
  (∀ req', Previous.verifyJWT now req = inr req' →
     Previous.guarded Previous.get_wishlist now req st
     = (Some (respond 200 (Items (favoriteCollection st))), st))
  ∧ (cookies req !! "token" = None →
     Previous.guarded Previous.get_wishlist now req st
     = (Some (respond 401 (Message "Unauthorized: No token provided")), st)).
Proof.
  split.
  - intros req' Hv. unfold Previous.guarded. rewrite Hv.
    apply previous_get_wishlist_unscoped.
  - intros Hc. unfold Previous.guarded.
    by rewrite previous_verifyJWT_cookie_only.
Qed.

(** X21.  In the previous revision [DELETE /wishlist/:id] removes by
    identifier alone: any request the middleware lets through removes the
    first item carrying the identifier, whoever owns it, and answers 200
    with [deletedCount] 1. *)
Theorem previous_delete_ignores_caller now req req' st id oid l1 d l2 :
  Previous.verifyJWT now req = inr req' →
  params req !! "id" = Some id → ObjectId_new id = Some oid →
  favoriteCollection st = l1 ++ d :: l2 →
  Forall (λ d', ¬ has_oid oid d') l1 → has_oid oid d →
  Previous.guarded Previous.delete_wishlist now req st
  = (Some (respond 200 (DeleteResult 1)), with_favorite st (l1 ++ l2) (next_pk st)).
Proof.
  intros Hv Hid Hoid Hfav Hl1 Hd. unfold Previous.guarded.
  destruct (previous_verifyJWT_cases now req)
    as [(r & Hv' & _) | (token & u & Hv' & _)]; rewrite Hv' in Hv; simplify_eq.
  rewrite Hv'.
  by apply (previous_delete_ignores_owner now _ st id oid l1 d l2).
Qed.

(** X22.  In the previous revision [DELETE /wishlist/:id] has no guard on
    the identifier: for one that is not a valid ObjectId string the
    constructor throws inside the handler before the store is called, so
    the handler sends no answer of its own (no 400, no 200) and the store
    is left as it is; what the client then receives is Express's treatment
    of the rejected handler. *)
Theorem previous_delete_invalid_id_throws now req req' st id :
  Previous.verifyJWT now req = inr req' →
  params req !! "id" = Some id → ObjectId_isValid id = false →
  Previous.guarded Previous.delete_wishlist now req st = (None, st).
Proof.
  intros Hv Hid Hbad. unfold Previous.guarded.
  destruct (previous_verifyJWT_cases now req)
    as [(r & Hv' & _) | (token & u & Hv' & _)]; rewrite Hv' in Hv; simplify_eq.
  rewrite Hv'. by apply (previous_delete_unguarded now _ st id).
Qed.

(** X23.  In the previous revision the owner of a saved item is the [email]
    of the body, not the one of the token: when [POST /wishlist] answers
    200 the item appended to the collection carries the body's [email],
    whatever the token of the request verifies to. *)
Theorem previous_owner_is_body_email now req req' st item r st' :
  Previous.verifyJWT now req = inr req' →
  body req = Some item →
  Previous.guarded Previous.post_wishlist now req st = (Some r, st') →
  status r = 200%nat →
  ∃ d, favoriteCollection st' = favoriteCollection st ++ [d]
       ∧ d !! "email" = item !! "email"
       ∧ truthy_opt (item !! "email") = true.
Proof.
  intros Hv Hb. unfold Previous.guarded.
  destruct (previous_verifyJWT_cases now req)
    as [(r0 & Hv' & _) | (token & u & Hv' & _)]; rewrite Hv' in Hv; simplify_eq.
  rewrite Hv'. intros Hp H200.
  destruct (previous_post_wishlist_owner now _ st item r st' Hb Hp H200)
    as (d & Hfav & Hd).
  exists d. split_and!; try done.
  revert Hp. unfold Previous.post_wishlist. rewrite body_set_user, Hb.
  destruct (truthy_opt (item !! "email")); [done|].
  rewrite orb_true_r. intros ?; by simplify_eq.
Qed.

(** X24.  In the previous revision [POST /users] inserts once and never
    updates, and it compares addresses as sent, without lower-casing: for
    an address that already has a record the answer is 200 "User already
    exists", the store is unchanged and no session cookie is set; for an
    address without record, an answered request appends a record with the
    email exactly as sent and sets a cookie signed for that email. *)
Theorem previous_users_existing_untouched now req st u e :
  body req = Some u → u !! "email" = Some (VStr e) →
  ((0 < count_email e (usersCollection st))%nat →
   Previous.post_users now req st
   = (Some {| status := 200; json := Message "User already exists";
              cookie := NoCookie |}, st))
  ∧ (count_email e (usersCollection st) = 0%nat →
     ∀ r st', Previous.post_users now req st = (Some r, st') →
       ∃ id d,
         r = {| status := 200; json := InsertedId id;
                cookie := SetCookie "token"
                            (jwt_sign {["email" := VStr e]} "365d" now)
                            Previous.cookieOptions |}
         ∧ usersCollection st' = usersCollection st ++ [d]
         ∧ favoriteCollection st' = favoriteCollection st
         ∧ d !! "_id" = Some id ∧ d !! "email" = Some (VStr e)).
Proof.
  intros Hb He. split.
  - by apply (previous_post_users_existing now req st u e).
  - intros Hzero r st'. unfold Previous.post_users. rewrite Hb.
    unfold get. rewrite He. simpl.
    pose proof (findOne_email e (usersCollection st)) as Hf.
    destruct (findOne _ _) as [x|]; [destruct Hf; lia|].
    destruct (insertOne _ _ _) as [[[id c] pk]|] eqn:Hi; [|done].
    intros ?; simplify_eq.
    destruct (insertOne_stored _ _ _ _ _ _ Hi) as (d & -> & Hid & Hd).
    exists id, d. split_and!; try done. by rewrite Hd.
Qed.

(** ** Deduplication keys across the routes *)




End Coverage.

(** * The further properties on the sample environment *)

Lemma sample_json (d : doc) :
  map_Forall (λ _ v, is_json v = true) d → json_doc d.
Proof. intros Hd k v Hkv. exact (Hd k v Hkv). Qed.

Lemma sample_two_owners_reachable : @reachable Sample.env Sample.two_owners.
Proof.
  unfold Sample.two_owners, Sample.serve.
  apply (reachable_serve (env := Sample.env)).
  - apply (reachable_serve (env := Sample.env)); [constructor|].
    intros b Hb. simpl in Hb. simplify_eq. apply sample_json.
    apply (bool_decide_unpack _). vm_compute. exact I.
  - intros b Hb. simpl in Hb. simplify_eq. apply sample_json.
    apply (bool_decide_unpack _). vm_compute. exact I.
Qed.



Lemma bearer_header_admits_like_cookie_witness :
  let req_header := Cases.with_bearer "tok:alice@x.com" None "" in
  let req_cookie := Sample.as_user "alice@x.com" None "" in
  cookies req_header !! "token" = None
  ∧ headers req_header !! "authorization" = Some "Bearer tok:alice@x.com"
  ∧ cookies req_cookie !! "token" = Some "tok:alice@x.com"
  ∧ @serve Sample.env GET_wishlist 3 req_header Sample.two_owners
    = @serve Sample.env GET_wishlist 3 req_cookie Sample.two_owners.
Proof.
  intros req_header req_cookie.
  split; [reflexivity|]. split; [reflexivity|]. split; [reflexivity|].
  apply (bearer_header_admits_like_cookie (env := Sample.env) GET_wishlist 3
           req_header req_cookie Sample.two_owners "tok:alice@x.com");
    try reflexivity; [done|].
  apply (bool_decide_unpack _). vm_compute. exact I.
Defined.

Lemma bad_cookie_not_rescued_by_header_witness :
  cookies Cases.bad_cookie_good_header !! "token" = Some "forged"
  ∧ headers Cases.bad_cookie_good_header !! "authorization"
    = Some "Bearer tok:alice@x.com"
  ∧ Sample.jwt_verify "forged" 3 = inl (JsonWebTokenError "jwt malformed")
  ∧ Sample.jwt_verify "tok:alice@x.com" 3 = inr {["email" := Sample.alice]}
  ∧ @serve Sample.env GET_wishlist 3 Cases.bad_cookie_good_header Sample.two_owners
    = (respond 403 (Message "Forbidden: Invalid or expired token"),
       Sample.two_owners).
Proof.
  split; [reflexivity|]. split; [reflexivity|]. split; [reflexivity|].
  split; [vm_compute; reflexivity|].
  apply (bad_cookie_not_rescued_by_header (env := Sample.env) GET_wishlist 3
           Cases.bad_cookie_good_header Sample.two_owners "forged"
           (JsonWebTokenError "jwt malformed")); try reflexivity. done.
Defined.

Lemma token_without_email_forbidden_witness :
  let req := Sample.as_user "anyone" (Some (Sample.hotel "h1")) "" in
  let r := @serve Cases.env_no_email POST_wishlist 3 req Sample.two_owners in
  @verifyJWT Cases.env_no_email 3 req = inr (set_user req ∅)
  ∧ r.2 = Sample.two_owners
  ∧ (status r.1 = 400%nat
     ∨ r.1 = respond 403 (Message "Forbidden: user email missing in token"))
  ∧ (POST_wishlist = GET_wishlist →
     r.1 = respond 403 (Message "Forbidden: user email missing in token")).
Proof.
  intros req r.
  assert (@verifyJWT Cases.env_no_email 3 req = inr (set_user req ∅)) as Hv
    by (vm_compute; reflexivity).
  split; [exact Hv|].
  exact (token_without_email_forbidden (env := Cases.env_no_email) POST_wishlist 3
           req Sample.two_owners ∅ eq_refl Hv eq_refl).
Defined.

Lemma wishlist_falsy_fields_rejected_witness :
  let req := Sample.as_user "alice@x.com" (Some Cases.zero_id) "" in
  @verifyJWT Sample.env 3 req = inr (set_user req {["email" := Sample.alice]})
  ∧ body req ≫= (λ item : doc, item !! "id") = Some (VNum 0)
  ∧ @serve Sample.env POST_wishlist 3 req Sample.two_owners
    = (respond 400 (Message "Invalid wishlist data: missing id"), Sample.two_owners).
Proof.
  intros req.
  assert (@verifyJWT Sample.env 3 req
          = inr (set_user req {["email" := Sample.alice]})) as Hv
    by (vm_compute; reflexivity).
  split; [exact Hv|]. split; [reflexivity|].
  exact (proj1 (wishlist_falsy_fields_rejected (env := Sample.env) 3 req _
                  Sample.two_owners Hv) eq_refl).
Defined.

Lemma other_callers_keep_listing_witness :
  let req := Sample.as_user "bob@x.com" (Some (Sample.hotel "h2")) "" in
  let st := Sample.two_owners in
  @caller Sample.env 3 req = Some Sample.bob
  ∧ status (@serve Sample.env POST_wishlist 3 req st).1 = 201%nat
  ∧ filter (owned_by Sample.alice)
      (favoriteCollection (@serve Sample.env POST_wishlist 3 req st).2)
    = filter (owned_by Sample.alice) (favoriteCollection st).
Proof.
  intros req st.
  assert (@caller Sample.env 3 req = Some Sample.bob) as Hc
    by (vm_compute; reflexivity).
  split; [exact Hc|]. split; [vm_compute; reflexivity|].
  apply (other_callers_keep_listing (env := Sample.env) POST_wishlist 3 req st
           Sample.alice).
  rewrite Hc. discriminate.
Defined.

Lemma add_then_list_witness :
  let req := Sample.as_user "alice@x.com" (Some (Sample.hotel "h2")) "" in
  let req' := Sample.as_user "alice@x.com" None "" in
  let st := Sample.two_owners in
  let st1 := (@serve Sample.env POST_wishlist 3 req st).2 in
  @caller Sample.env 3 req = Some Sample.alice
  ∧ status (@serve Sample.env POST_wishlist 3 req st).1 = 201%nat
  ∧ ∃ id d,
      (@serve Sample.env POST_wishlist 3 req st).1 = respond 201 (InsertedId id)
      ∧ @serve Sample.env GET_wishlist 4 req' st1
        = (respond 200
             (Items (filter (owned_by Sample.alice) (favoriteCollection st) ++ [d])),
           st1)
      ∧ d !! "_id" = Some id ∧ d !! "email" = Some Sample.alice
      ∧ d !! "createdAt" = Some (VDate 3)
      ∧ (∀ k, k ≠ "_id" → k ≠ "email" → k ≠ "createdAt" →
              d !! k = Sample.hotel "h2" !! k).
Proof.
  intros req req' st st1.
  assert (@caller Sample.env 3 req = Some Sample.alice) as Hc
    by (vm_compute; reflexivity).
  assert (status (@serve Sample.env POST_wishlist 3 req st).1 = 201%nat) as H201
    by (vm_compute; reflexivity).
  split; [exact Hc|]. split; [exact H201|].
  apply (add_then_list (env := Sample.env) POST_wishlist 3 4 req req' st
           Sample.alice (Sample.hotel "h2") (or_introl eq_refl) Hc);
    [vm_compute; reflexivity | reflexivity | exact H201].
Defined.

Lemma add_then_remove_restores_witness :
  let req := Sample.as_user "alice@x.com" (Some (Sample.hotel "h2")) "" in
  let req' := Sample.as_user "alice@x.com" None Cases.oid2 in
  let st := Sample.two_owners in
  let st1 := (@serve Sample.env POST_wishlist 3 req st).2 in
  let st2 := (@serve Sample.env DELETE_wishlist 4 req' st1).2 in
  (@serve Sample.env POST_wishlist 3 req st).1 = respond 201 (InsertedId (VOid 2))
  ∧ ObjectId_new Cases.oid2 = Some 2%N
  ∧ (@serve Sample.env DELETE_wishlist 4 req' st1).1 = respond 200 (DeletedCount 1)
  ∧ favoriteCollection st2 = favoriteCollection st
  ∧ usersCollection st2 = usersCollection st.
Proof.
  intros req req' st st1 st2.
  assert ((@serve Sample.env POST_wishlist 3 req st).1
          = respond 201 (InsertedId (VOid 2))) as Hresp
    by (vm_compute; reflexivity).
  split; [exact Hresp|]. split; [vm_compute; reflexivity|].
  apply (add_then_remove_restores (env := Sample.env) POST_wishlist 3 4 req req' st
           Sample.alice 2%N Cases.oid2 (or_introl eq_refl));
    try exact Hresp; vm_compute; reflexivity.
Defined.

Lemma remove_twice_not_found_witness :
  let req := Sample.as_user "alice@x.com" None Sample.oid0 in
  let st := Sample.two_owners in
  let st1 := (@serve Sample.env DELETE_wishlist 3 req st).2 in
  NoDup (ids (favoriteCollection st))
  ∧ status (@serve Sample.env DELETE_wishlist 3 req st).1 = 200%nat
  ∧ (∀ d, d ∈ favoriteCollection st1 → ¬ has_oid 0 d)
  ∧ @serve Sample.env DELETE_wishlist 4 req st1
    = (respond 404 (Message "Not found or not authorized to delete"), st1).
Proof.
  intros req st st1.
  assert (NoDup (ids (favoriteCollection st))) as Hnd
    by (apply (bool_decide_unpack _); vm_compute; exact I).
  assert (status (@serve Sample.env DELETE_wishlist 3 req st).1 = 200%nat) as H200
    by (vm_compute; reflexivity).
  split; [exact Hnd|]. split; [exact H200|].
  apply (remove_twice_not_found (env := Sample.env) 3 4 req req st Sample.alice
           Sample.oid0 0%N Hnd);
    try exact H200; vm_compute; reflexivity.
Defined.

Lemma reachable_items_owned_witness :
  @reachable Sample.env Sample.two_owners
  ∧ Forall item_ok (favoriteCollection Sample.two_owners).
Proof.
  split; [exact sample_two_owners_reachable|].
  exact (reachable_items_owned (env := Sample.env) Sample.two_owners
           sample_two_owners_reachable).
Defined.

Lemma reachable_ids_unique_witness :
  let st := Sample.two_owners in
  let d := Cases.first_of (favoriteCollection st) in
  @reachable Sample.env st
  ∧ favoriteCollection st !! 0%nat = Some d
  ∧ 0%nat = 0%nat
  ∧ NoDup (ids (favoriteCollection st)) ∧ NoDup (ids (usersCollection st))
  ∧ (∀ o, d !! "_id" = Some (VOid o) → (o < next_pk st)%N).
Proof.
  intros st d.
  assert (favoriteCollection st !! 0%nat = Some d) as Hd
    by (vm_compute; reflexivity).
  split; [exact sample_two_owners_reachable|]. split; [exact Hd|].
  exact (reachable_ids_unique (env := Sample.env) st 0 0 d d
           sample_two_owners_reachable Hd Hd eq_refl).
Defined.

Lemma user_record_identity_kept_witness :
  let req := Sample.as_user "" (Some Sample.profile2) "" in
  let st := Cases.alice_registered in
  let d := Cases.first_of (usersCollection st) in
  usersCollection st !! 0%nat = Some d
  ∧ d !! "createdAt" = Some (VDate 1)
  ∧ ∃ d', usersCollection (@serve Sample.env POST_users 9 req st).2 !! 0%nat = Some d'
          ∧ d' !! "_id" = d !! "_id"
          ∧ d' !! "email" = d !! "email"
          ∧ d' !! "createdAt" = d !! "createdAt".
Proof.
  intros req st d.
  assert (usersCollection st !! 0%nat = Some d) as Hd by (vm_compute; reflexivity).
  split; [exact Hd|]. split; [vm_compute; reflexivity|].
  exact (user_record_identity_kept (env := Sample.env) POST_users 9 req st 0 d Hd).
Defined.


Lemma jwt_only_for_registered_witness :
  let req := Sample.as_user "" (Some Cases.jwt_body) "" in
  let st := Cases.alice_registered in
  Cases.jwt_body !! "email" = Some (VStr "ALICE@X.COM")
  ∧ (0 < count_email (Sample.toLowerCase "ALICE@X.COM") (usersCollection st))%nat
  ∧ (@serve Sample.env POST_jwt 5 req st).2 = st
  ∧ (@serve Sample.env POST_jwt 5 req st).1
    = {| status := 200; json := Success;
         cookie := SetCookie "token"
                     (Sample.jwt_sign
                        {["email" := VStr (Sample.toLowerCase "ALICE@X.COM")]}
                        "200h" 5)
                     (@cookieOptions Sample.env) |}.
Proof.
  intros req st.
  assert (0 < count_email (Sample.toLowerCase "ALICE@X.COM") (usersCollection st))%nat
    as Hpos by (vm_compute; lia).
  split; [reflexivity|]. split; [exact Hpos|].
  destruct (jwt_only_for_registered (env := Sample.env) 5 req st Cases.jwt_body
              "ALICE@X.COM" eq_refl eq_refl ltac:(done)) as (Hst & Hyes & _).
  split; [exact Hst | exact (Hyes Hpos)].
Defined.

Lemma register_then_jwt_witness :
  let req1 := Sample.as_user "" (Some Sample.profile1) "" in
  let req2 := Sample.as_user "" (Some Cases.jwt_body) "" in
  let st1 := (@serve Sample.env POST_users 1 req1 empty_db).2 in
  Sample.toLowerCase "Alice@X.com" = Sample.toLowerCase "ALICE@X.COM"
  ∧ status (@serve Sample.env POST_users 1 req1 empty_db).1 ≠ 500%nat
  ∧ @serve Sample.env POST_jwt 2 req2 st1
    = ({| status := 200; json := Success;
          cookie := SetCookie "token"
                      (Sample.jwt_sign
                         {["email" := VStr (Sample.toLowerCase "Alice@X.com")]}
                         "200h" 2)
                      (@cookieOptions Sample.env) |}, st1).
Proof.
  intros req1 req2 st1.
  assert (status (@serve Sample.env POST_users 1 req1 empty_db).1 ≠ 500%nat) as Hok
    by (vm_compute; lia).
  split; [vm_compute; reflexivity|]. split; [exact Hok|].
  apply (register_then_jwt (env := Sample.env) 1 2 req1 req2 empty_db
           Sample.profile1 Cases.jwt_body "Alice@X.com" "ALICE@X.COM");
    try exact Hok; try done; vm_compute; reflexivity.
Defined.

Lemma registration_cookie_lists_own_items_witness :
  let req := Sample.as_user "" (Some Sample.profile1) "" in
  let token :=
    Sample.jwt_sign {["email" := VStr (Sample.toLowerCase "Alice@X.com")]} "365d" 1 in
  status (@serve Sample.env POST_users 1 req empty_db).1 ≠ 500%nat
  ∧ token = "tok:alice@x.com"
  ∧ Sample.jwt_verify token 7 = inr {["email" := Sample.alice]}
  ∧ cookie (@serve Sample.env POST_users 1 req empty_db).1
    = SetCookie "token" token (@cookieOptions Sample.env)
  ∧ @serve Sample.env GET_wishlist 7 (Sample.as_user "alice@x.com" None "")
      Sample.two_owners
    = (respond 200
         (Items (filter (owned_by (VStr (Sample.toLowerCase "Alice@X.com")))
                   (favoriteCollection Sample.two_owners))),
       Sample.two_owners).
Proof.
  intros req token.
  assert (status (@serve Sample.env POST_users 1 req empty_db).1 ≠ 500%nat) as Hok
    by (vm_compute; lia).
  split; [exact Hok|]. split; [vm_compute; reflexivity|].
  split; [vm_compute; reflexivity|].
  destruct (registration_cookie_lists_own_items (env := Sample.env) 1 7 req empty_db
              Sample.profile1 "Alice@X.com" eq_refl eq_refl ltac:(done)
              ltac:(vm_compute; discriminate) Hok) as [Hcookie Hlist].
  { split; [vm_compute; discriminate|].
    exists {["email" := Sample.alice]}. split; vm_compute; reflexivity. }
  split; [exact Hcookie|].
  apply Hlist. vm_compute. reflexivity.
Defined.

Lemma cors_origin_policy_witness :
  let allowed := allowedOrigins trim_ascii Cases.two_origins in
  (∀ s c, c ∈ list_ascii_of_string (trim_ascii s) → c ∈ list_ascii_of_string s)
  ∧ ascii_only (configured_origins Cases.two_origins)
  ∧ allowed = ["https://app.example.com"; "http://localhost:5173"]
  ∧ cors_origin allowed (Some "https://app.example.com") = true
  ∧ Forall (λ c, c ≠ ","%char) (list_ascii_of_string "https://app.example.com")
  ∧ ascii_only "https://app.example.com"
  ∧ (∀ c, last (list_ascii_of_string "https://app.example.com") = Some c →
          is_space c = false).
Proof.
  intros allowed.
  assert (ascii_only (configured_origins Cases.two_origins)) as Hascii
    by (apply (bool_decide_unpack _); vm_compute; exact I).
  assert (cors_origin allowed (Some "https://app.example.com") = true) as Hallowed
    by (vm_compute; reflexivity).
  split; [exact trim_ascii_keeps_chars|].
  split; [exact Hascii|]. split; [vm_compute; reflexivity|].
  split; [exact Hallowed|].
  split.
  - exact (proj1 (proj2 (proj2 (proj2
             (cors_origin_policy trim_ascii Cases.two_origins))))
             trim_ascii_keeps_chars "https://app.example.com"
             ltac:(discriminate) Hallowed).
  - pose proof (proj1 (proj2 (proj2 (proj2 (proj2
                  (cors_origin_policy trim_ascii Cases.two_origins)))))
                  (λ s _, eq_refl) Hascii "https://app.example.com"
                  ltac:(discriminate) Hallowed) as (Ho & _ & Hlast).
    split; [exact Ho | exact Hlast].
Defined.

Lemma previous_delete_ignores_caller_witness :
  let req := Sample.as_user "bob@x.com" None Sample.oid0 in
  let st := Sample.two_owners in
  let d := Cases.first_of (favoriteCollection st) in
  let l2 := drop 1 (favoriteCollection st) in
  @Previous.verifyJWT Sample.env 3 req = inr (set_user req {["email" := Sample.bob]})
  ∧ favoriteCollection st = [] ++ d :: l2
  ∧ has_oid 0 d ∧ owned_by Sample.alice d
  ∧ @Previous.guarded Sample.env Previous.delete_wishlist 3 req st
    = (Some (respond 200 (DeleteResult 1)), with_favorite st ([] ++ l2) (next_pk st)).
Proof.
  intros req st d l2.
  assert (@Previous.verifyJWT Sample.env 3 req
          = inr (set_user req {["email" := Sample.bob]})) as Hv
    by (vm_compute; reflexivity).
  assert (favoriteCollection st = [] ++ d :: l2) as Hfav
    by (vm_compute; reflexivity).
  assert (has_oid 0 d) as Hd by (vm_compute; reflexivity).
  split; [exact Hv|]. split; [exact Hfav|]. split; [exact Hd|].
  split; [vm_compute; reflexivity|].
  exact (previous_delete_ignores_caller (env := Sample.env) 3 req _ st Sample.oid0
           0%N [] d l2 Hv eq_refl ltac:(vm_compute; reflexivity) Hfav
           (Forall_nil_2 _) Hd).
Defined.

Lemma previous_delete_invalid_id_throws_witness :
  let req := Sample.as_user "bob@x.com" None "not-an-id" in
  @Previous.verifyJWT Sample.env 3 req = inr (set_user req {["email" := Sample.bob]})
  ∧ ObjectId_isValid "not-an-id" = false
  ∧ @Previous.guarded Sample.env Previous.delete_wishlist 3 req Sample.two_owners
    = (None, Sample.two_owners).
Proof.
  intros req.
  assert (@Previous.verifyJWT Sample.env 3 req
          = inr (set_user req {["email" := Sample.bob]})) as Hv
    by (vm_compute; reflexivity).
  split; [exact Hv|]. split; [reflexivity|].
  exact (previous_delete_invalid_id_throws (env := Sample.env) 3 req _
           Sample.two_owners "not-an-id" Hv eq_refl eq_refl).
Defined.

Lemma previous_owner_is_body_email_witness :
  let req := Sample.as_user "alice@x.com" (Some (Sample.hotel "h1")) "" in
  let out := @Previous.guarded Sample.env Previous.post_wishlist 3 req empty_db in
  @Previous.verifyJWT Sample.env 3 req = inr (set_user req {["email" := Sample.alice]})
  ∧ out = (Some (respond 200 (InsertOneResult (VOid 0))), out.2)
  ∧ Sample.hotel "h1" !! "email" = Some (VStr "mallory@x.com")
  ∧ ∃ d, favoriteCollection out.2 = favoriteCollection empty_db ++ [d]
         ∧ d !! "email" = Sample.hotel "h1" !! "email"
         ∧ truthy_opt (Sample.hotel "h1" !! "email") = true.
Proof.
  intros req out.
  assert (@Previous.verifyJWT Sample.env 3 req
          = inr (set_user req {["email" := Sample.alice]})) as Hv
    by (vm_compute; reflexivity).
  assert (out = (Some (respond 200 (InsertOneResult (VOid 0))), out.2)) as Hout
    by (vm_compute; reflexivity).
  split; [exact Hv|]. split; [exact Hout|]. split; [vm_compute; reflexivity|].
  exact (previous_owner_is_body_email (env := Sample.env) 3 req _ empty_db
           (Sample.hotel "h1") _ _ Hv eq_refl Hout eq_refl).
Defined.

Lemma previous_users_existing_untouched_witness :
  let req := Sample.as_user "" (Some Sample.profile2) "" in
  let st := Cases.alice_registered in
  Sample.profile2 !! "email" = Some (VStr "alice@x.com")
  ∧ (0 < count_email "alice@x.com" (usersCollection st))%nat
  ∧ @Previous.post_users Sample.env 3 req st
    = (Some {| status := 200; json := Message "User already exists";
               cookie := NoCookie |}, st).
Proof.
  intros req st.
  assert (0 < count_email "alice@x.com" (usersCollection st))%nat as Hpos
    by (vm_compute; lia).
  split; [vm_compute; reflexivity|]. split; [exact Hpos|].
  exact (proj1 (previous_users_existing_untouched (env := Sample.env) 3 req st
                  Sample.profile2 "alice@x.com" eq_refl
                  ltac:(vm_compute; reflexivity)) Hpos).
Defined.


(** * Adding twice on the stores the server reaches *)

Ltac sample_reachable :=
  repeat (apply (reachable_serve (env := Sample.env));
          [| intros b Hb; simpl in Hb; simplify_eq; apply sample_json;
             apply (bool_decide_unpack _); vm_compute; exact I]);
  constructor.

(** C3 (as stated) fails on stores the server reaches.  After two
    recommendations whose bodies both carry the id h1, alice holds two items
    with key (alice, h1): both [POST /wishlist] calls for h1 are answered
    409 and the two items stay.  When the payloads choose a primary key that
    is taken, both calls are answered 500 and no item with the key is
    stored.  And for the id 0, which the handler does not accept, both calls
    are answered 400 and nothing is stored. *)
Lemma add_item_twice_two_items :
  let req1 := Cases.alice_sends (Sample.hotel "h1") in
  let req2 := Cases.alice_sends Cases.harbour in
  let st := Cases.recommended_twice in
  let st1 := (@serve Sample.env POST_wishlist 3 req1 st).2 in
  let st2 := (@serve Sample.env POST_wishlist 4 req2 st1).2 in
  let req1' := Cases.alice_sends (Cases.with_pk "k" (Sample.hotel "h1")) in
  let req2' := Cases.alice_sends (Cases.with_pk "k" Cases.harbour) in
  let st' := Cases.pk_taken in
  let st1' := (@serve Sample.env POST_wishlist 3 req1' st').2 in
  let st2' := (@serve Sample.env POST_wishlist 4 req2' st1').2 in
  let req0 := Cases.alice_sends Cases.zero_id in
  let st1_0 := (@serve Sample.env POST_wishlist 3 req0 empty_db).2 in
  let st2_0 := (@serve Sample.env POST_wishlist 4 req0 st1_0).2 in
  (@reachable Sample.env st
   ∧ @caller Sample.env 3 req1 = Some Sample.alice
   ∧ @caller Sample.env 4 req2 = Some Sample.alice
   ∧ Sample.hotel "h1" !! "id" = Some (VStr "h1")
   ∧ Cases.harbour !! "id" = Some (VStr "h1")
   ∧ status (@serve Sample.env POST_wishlist 3 req1 st).1 = 409%nat
   ∧ status (@serve Sample.env POST_wishlist 4 req2 st1).1 = 409%nat
   ∧ count_keyed "id" Sample.alice (VStr "h1") (favoriteCollection st2) = 2%nat)
  ∧ (@reachable Sample.env st'
     ∧ @caller Sample.env 3 req1' = Some Sample.alice
     ∧ @caller Sample.env 4 req2' = Some Sample.alice
     ∧ Cases.with_pk "k" (Sample.hotel "h1") !! "id" = Some (VStr "h1")
     ∧ Cases.with_pk "k" Cases.harbour !! "id" = Some (VStr "h1")
     ∧ count_keyed "id" Sample.alice (VStr "h1") (favoriteCollection st') = 0%nat
     ∧ status (@serve Sample.env POST_wishlist 3 req1' st').1 = 500%nat
     ∧ status (@serve Sample.env POST_wishlist 4 req2' st1').1 = 500%nat
     ∧ count_keyed "id" Sample.alice (VStr "h1") (favoriteCollection st2') = 0%nat)
  ∧ (@caller Sample.env 3 req0 = Some Sample.alice
     ∧ Cases.zero_id !! "id" = Some (VNum 0)
     ∧ status (@serve Sample.env POST_wishlist 3 req0 empty_db).1 = 400%nat
     ∧ status (@serve Sample.env POST_wishlist 4 req0 st1_0).1 = 400%nat
     ∧ count_keyed "id" Sample.alice (VNum 0) (favoriteCollection st2_0) = 0%nat).
Proof.
  intros req1 req2 st st1 st2 req1' req2' st' st1' st2' req0 st1_0 st2_0.
  split; [|split].
  - split; [unfold st, Cases.recommended_twice, Sample.serve; sample_reachable|].
    repeat (split; [vm_compute; reflexivity|]). vm_compute; reflexivity.
  - split; [unfold st', Cases.pk_taken, Sample.serve; sample_reachable|].
    repeat (split; [vm_compute; reflexivity|]). vm_compute; reflexivity.
  - repeat (split; [vm_compute; reflexivity|]). vm_compute; reflexivity.
Qed.

(** C4 (as stated) fails on stores the server reaches.  After two saved
    items, a and b, whose bodies both carry the hotelId H7, alice holds two
    items with key (alice, H7): both [POST /wishlist-recommend] calls for H7
    are answered 200 "Already in wishlist" and the two items stay.  When the
    payloads choose a primary key that is taken, both calls are answered 500
    and no item with the key is stored.  And for an empty hotelId, which
    the handler does not accept, both calls are answered 400 and nothing is
    stored. *)
Lemma add_recommendation_twice_two_items :
  let req := Cases.alice_sends (Sample.recommendation "H7") in
  let st := Cases.saved_twice in
  let st1 := (@serve Sample.env POST_wishlist_recommend 3 req st).2 in
  let st2 := (@serve Sample.env POST_wishlist_recommend 4 req st1).2 in
  let req' := Cases.alice_sends (Cases.with_pk "k" (Sample.recommendation "H7")) in
  let st' := Cases.pk_taken in
  let st1' := (@serve Sample.env POST_wishlist_recommend 3 req' st').2 in
  let st2' := (@serve Sample.env POST_wishlist_recommend 4 req' st1').2 in
  let req0 := Cases.alice_sends (Sample.recommendation "") in
  let st1_0 := (@serve Sample.env POST_wishlist_recommend 3 req0 empty_db).2 in
  let st2_0 := (@serve Sample.env POST_wishlist_recommend 4 req0 st1_0).2 in
  (@reachable Sample.env st
   ∧ @caller Sample.env 3 req = Some Sample.alice
   ∧ @caller Sample.env 4 req = Some Sample.alice
   ∧ Sample.recommendation "H7" !! "hotelId" = Some (VStr "H7")
   ∧ (@serve Sample.env POST_wishlist_recommend 3 req st).1
     = respond 200 (Message "Already in wishlist")
   ∧ (@serve Sample.env POST_wishlist_recommend 4 req st1).1
     = respond 200 (Message "Already in wishlist")
   ∧ count_keyed "hotelId" Sample.alice (VStr "H7") (favoriteCollection st2) = 2%nat)
  ∧ (@reachable Sample.env st'
     ∧ @caller Sample.env 3 req' = Some Sample.alice
     ∧ @caller Sample.env 4 req' = Some Sample.alice
     ∧ Cases.with_pk "k" (Sample.recommendation "H7") !! "hotelId" = Some (VStr "H7")
     ∧ count_keyed "hotelId" Sample.alice (VStr "H7") (favoriteCollection st') = 0%nat
     ∧ status (@serve Sample.env POST_wishlist_recommend 3 req' st').1 = 500%nat
     ∧ status (@serve Sample.env POST_wishlist_recommend 4 req' st1').1 = 500%nat
     ∧ count_keyed "hotelId" Sample.alice (VStr "H7") (favoriteCollection st2') = 0%nat)
  ∧ (@caller Sample.env 3 req0 = Some Sample.alice
     ∧ Sample.recommendation "" !! "hotelId" = Some (VStr "")
     ∧ status (@serve Sample.env POST_wishlist_recommend 3 req0 empty_db).1 = 400%nat
     ∧ status (@serve Sample.env POST_wishlist_recommend 4 req0 st1_0).1 = 400%nat
     ∧ count_keyed "hotelId" Sample.alice (VStr "") (favoriteCollection st2_0) = 0%nat).
Proof.
  intros req st st1 st2 req' st' st1' st2' req0 st1_0 st2_0.
  split; [|split].
  - split; [unfold st, Cases.saved_twice, Sample.serve; sample_reachable|].
    repeat (split; [vm_compute; reflexivity|]). vm_compute; reflexivity.
  - split; [unfold st', Cases.pk_taken, Sample.serve; sample_reachable|].
    repeat (split; [vm_compute; reflexivity|]). vm_compute; reflexivity.
  - repeat (split; [vm_compute; reflexivity|]). vm_compute; reflexivity.
Qed.
